(** * LMD-Calipso: the CALIPSO loader of [calipso.py]

    A shallow embedding of [calipso.py] and the properties of its
    record collection ([DataObject]), of the single-shot reducer
    ([rearrange_calipso_the_single_shot_info]) and of the file loader
    ([read_calipso_h5], [read_calipso]).

    Modelling conventions.
    - A numpy array is its shape together with its flat buffer in C
      order.  Array elements are exact rationals: the rounding of
      [float32]/[float64] arithmetic is not modelled, integer arrays hold
      integer-valued rationals, and the [int8] casts are written out.
    - Python exceptions are an error result ([Err]); the exception classes
      that the code raises or catches are the constructors of [exn].
    - A Python [dict] with string keys is a [gmap string _].
    - The loader runs in a small state-and-error monad over a [world]
      that records the open file handles and the printed lines. *)

From Stdlib Require Import ZArith QArith Lia Ascii String.
From stdpp Require Import base option list gmap strings.

Local Open Scope Z_scope.
Local Open Scope nat_scope.

(** ** Exceptions and results *)

Inductive exn :=
  | ValueError | KeyError | AttributeError | TypeError | IndexError | OSError.

Inductive result (A : Type) :=
  | Ok (a : A)
  | Err (e : exn).
Arguments Ok {A} a.
Arguments Err {A} e.

#[global] Instance exn_eq_dec : EqDecision exn.
Proof. solve_decision. Defined.

Definition bind {A B} (r : result A) (f : A → result B) : result B :=
  match r with Ok a => f a | Err e => Err e end.

Notation "x <- m ;; f" := (bind m (λ x, f))
  (at level 100, m at next level, right associativity).

Definition is_ok {A} (r : result A) : bool :=
  match r with Ok _ => true | Err _ => false end.

(** ** numpy arrays *)

Record ndarray := NdArray { shape : list nat; flat : list Q }.

Definition ndim (a : ndarray) : nat := length (shape a).

(** Number of elements.  Every array that numpy builds has
    [length flat = product shape]; the arrays built below keep it. *)
Definition size (a : ndarray) : nat := length (flat a).

Definition product (l : list nat) : nat := foldr Nat.mul 1 l.

Definition wf_array (a : ndarray) : Prop := length (flat a) = product (shape a).

(** [len(a)]: the first dimension; a zero-dimensional array is unsized. *)
Definition np_len (a : ndarray) : result nat :=
  match shape a with
  | [] => Err TypeError
  | n :: _ => Ok n
  end.

(** A field of a collection: [None] or an array. *)
Inductive value :=
  | VNone
  | VArr (a : ndarray).

(** [np.concatenate([x, y])] and [np.concatenate([x, y], 0)]: both join
    along axis 0.  [None] is converted to a zero-dimensional object array,
    and zero-dimensional arrays cannot be concatenated; the ranks and all
    dimensions but the first must agree.  Every failure is a [ValueError]. *)
Definition np_concatenate (x y : value) : result ndarray :=
  match x, y with
  | VArr a, VArr b =>
      match shape a, shape b with
      | n :: ra, m :: rb =>
          if decide (ra = rb)
          then Ok (NdArray ((n + m) :: ra) (flat a ++ flat b))
          else Err ValueError
      | _, _ => Err ValueError
      end
  | _, _ => Err ValueError
  end.
Arguments np_concatenate : simpl never.

(** [a.reshape(-1, k)]: the element count must be a multiple of [k]. *)
Definition reshape_rows (a : ndarray) (k : nat) : result ndarray :=
  if decide (k ≠ 0 ∧ size a `mod` k = 0)
  then Ok (NdArray [size a `div` k; k] (flat a))
  else Err ValueError.

(** The rows of a two-dimensional array. *)
Definition rows (a : ndarray) : list (list Q) :=
  match shape a with
  | [n; k] => (λ i, take k (drop (i * k) (flat a))) <$> seq 0 n
  | _ => []
  end.

(** [a[:, j]]: needs at least two axes and [j] within the second one. *)
Definition index_col (a : ndarray) (j : nat) : result ndarray :=
  match shape a with
  | n :: c :: rest =>
      if decide (j < c)
      then let blk := product rest in
           Ok (NdArray (n :: rest)
                 (concat ((λ i, take blk (drop ((i * c + j) * blk) (flat a)))
                            <$> seq 0 n)))
      else Err IndexError
  | _ => Err IndexError
  end.

(** Element-wise operation on two one-dimensional operands with numpy's
    broadcasting: equal lengths, or one operand of length one. *)
Definition broadcast2 {A B C} (f : A → B → C) (xs : list A) (ys : list B)
  : result (list C) :=
  if decide (length xs = length ys) then Ok (zip_with f xs ys)
  else match xs, ys with
       | [x], _ => Ok (f x <$> ys)
       | _, [y] => Ok ((λ x, f x y) <$> xs)
       | _, _ => Err ValueError
       end.

(** Two's-complement wrap-around of [astype(np.int8)]. *)
Definition int8 (z : Z) : Z := ((z + 128) `mod` 256 - 128)%Z.

(** [astype(np.int8)] on an element: truncation towards zero, then wrap. *)
Definition astype_int8 (q : Q) : Q :=
  inject_Z (int8 (Z.quot (Qnum q) (Z.pos (Qden q)))).

Definition Qltb (x y : Q) : bool := negb (Qle_bool y x).

Definition Qsum (l : list Q) : Q := foldr Qplus 0%Q l.

(** ** The record collection *)

(** The attribute [all_arrays] normally holds the dictionary of fields;
    [__setattr__] stores it directly when the name is ['all_arrays'], so an
    assignment under that name replaces the dictionary by the value. *)
Inductive all_arrays_t :=
  | Dict (m : gmap string value)
  | NotDict (v : value).

Record DataObject := { all_arrays : all_arrays_t }.

(** [DataObject.__setattr__] *)
Definition setattr (self : DataObject) (name : string) (v : value)
  : result DataObject :=
  if decide (name = "all_arrays") then Ok {| all_arrays := NotDict v |}
  else match all_arrays self with
       | Dict m => Ok {| all_arrays := Dict (<[name := v]> m) |}
       | NotDict VNone => Err TypeError
       | NotDict (VArr _) => Err IndexError
       end.

(** [DataObject.__getattr__] for a name other than [all_arrays]. *)
Definition getattr (self : DataObject) (name : string) : result value :=
  match all_arrays self with
  | Dict m => match m !! name with
              | Some v => Ok v
              | None => Err AttributeError
              end
  | NotDict VNone => Err TypeError
  | NotDict (VArr _) => Err IndexError
  end.

(** *** Concatenation: [DataObject.__add__] *)

Definition getitem {V} (m : gmap string V) (key : string) : result V :=
  match m !! key with
  | Some v => Ok v
  | None => Err KeyError
  end.

(** [d.keys()] on the attribute; anything but a dictionary has no [keys]. *)
Definition dict_of (d : all_arrays_t) : result (gmap string value) :=
  match d with
  | Dict m => Ok m
  | NotDict _ => Err AttributeError
  end.

(** [v is not None and len(v) > 0] *)
Definition field_nonempty (v : value) : result bool :=
  match v with
  | VNone => Ok false
  | VArr a => n <- np_len a;; Ok (bool_decide (0 < n))
  end.

(** The emptiness loops of lines 68-75: every field is inspected, there
    is no early exit. *)
Fixpoint is_empty_loop (vals : list value) (is_empty : bool) : result bool :=
  match vals with
  | [] => Ok is_empty
  | v :: rest =>
      b <- field_nonempty v;;
      is_empty_loop rest (if b then false else is_empty)
  end.

Definition segment_keys : list string :=
  ["segment_nwp_geoheight"; "segment_nwp_moist";
   "segment_nwp_pressure"; "segment_nwp_temp"].

(** The second [try] of the loop body: concatenate, and on [ValueError]
    take the other operand's value. *)
Definition concat_or_replace (key : string) (a : ndarray)
    (self other : gmap string value) : result (gmap string value) :=
  ov <- getitem other key;;
  match np_concatenate (VArr a) ov with
  | Ok c => Ok (<[key := VArr c]> self)
  | Err ValueError => Ok (<[key := ov]> self)
  | Err e => Err e
  end.

(** One iteration of the loop of lines 82-109. *)
Definition add_key (key : string) (self other : gmap string value)
  : result (gmap string value) :=
  sv <- getitem self key;;
  match sv with
  | VNone =>
      (* [None.ndim] raises AttributeError *)
      ov <- getitem other key;; Ok (<[key := ov]> self)
  | VArr a =>
      if decide (ndim a ≠ ndim a) then Err ValueError
      else if decide (ndim a = 1) then concat_or_replace key a self other
      else if decide (key ∈ segment_keys) then concat_or_replace key a self other
      else if decide (ndim a = 2) then concat_or_replace key a self other
      else Ok self
  end.

Fixpoint add_loop (keys : list string) (self other : gmap string value)
  : result (gmap string value) :=
  match keys with
  | [] => Ok self
  | key :: rest => self' <- add_key key self other;; add_loop rest self' other
  end.

(** [self + other].  The first operand is updated in place and returned,
    so the result is the updated dictionary.  The loop reads each key of
    the first operand once, before writing it, which makes the outcome the
    same when both operands are one object. *)
Definition add (self other : DataObject) : result DataObject :=
  ms <- dict_of (all_arrays self);;
  is_empty_self <- is_empty_loop ((map_to_list ms).*2) true;;
  mo <- dict_of (all_arrays other);;
  is_empty_other <- is_empty_loop ((map_to_list mo).*2) true;;
  if is_empty_self then Ok other
  else if is_empty_other then Ok self
  else m <- add_loop ((map_to_list ms).*1) ms mo;;
       Ok {| all_arrays := Dict m |}.

(** [CalipsoObject()] : every known field is [None]. *)
Definition calipso_fields : list string :=
  ["longitude"; "latitude"; "imager_linnum"; "imager_pixnum"; "elevation";
   "cloud_fraction"; "validation_height"; "sec_1970";
   "minimum_laser_energy_532"; "layer_top_altitude";
   "layer_top_temperature"; "layer_top_pressure"; "midlayer_temperature";
   "layer_base_altitude"; "layer_base_pressure"; "number_layers_found";
   "igbp_surface_type"; "nsidc_surface_type"; "snow_ice_surface_type";
   "profile_time_tai"; "feature_classification_flags"; "day_night_flag";
   "feature_optical_depth_532"; "tropopause_height"; "profile_id";
   "column_optical_depth_tropospheric_aerosols_532_5km";
   "column_optical_depth_tropospheric_aerosols_532";
   "column_optical_depth_aerosols_532_5km";
   "column_optical_depth_aerosols_532";
   "column_optical_depth_cloud_532_5km"; "feature_optical_depth_532_5km";
   "layer_top_altitude_5km"; "layer_top_pressure_5km";
   "number_layers_found_5km"; "detection_height_5km";
   "total_optical_depth_5km"; "feature_optical_depth_532_top_layer_5km";
   "cfc_single_shots_1km_from_5km_file";
   "average_cloud_top_pressure_single_shots";
   "average_cloud_top_pressure_single_shots_5km";
   "average_cloud_top_single_shots"; "average_cloud_top_single_shots_5km";
   "average_cloud_base_single_shots"; "average_cloud_base_single_shots_5km";
   "single_shot_data"; "cfc_single_shots_1km_from_5km_file";
   "cal_modis_cflag"; "cloudsat_index"].

Definition CalipsoObject : DataObject :=
  {| all_arrays :=
       Dict (list_to_map ((λ k, (k, VNone)) <$> calipso_fields)) |}.

(** ** The single-shot reducer *)

(** [np.sum(row == 0)] for one row. *)
Definition count_zeros (row : list Q) : nat :=
  length (List.filter (λ x, Qeq_bool x 0) row).

(** [np.where(a > 0, a, 0.0)] on one element. *)
Definition clamp (x : Q) : Q := if Qltb 0 x then x else 0%Q.

(** [np.where(count > 0, np.divide(total, count), -9.0)] on one element. *)
Definition mean_or_sentinel (total : Q) (count : Z) : Q :=
  if (0 <? count)%Z then (total / inject_Z count)%Q else (-9 # 1)%Q.

(** Lines 202-210, and the same computation at 214-222 and 226-234:
    first layer of every single shot, regrouped by footprint, clamped,
    summed per footprint and divided by the number of cloudy shots.  The
    three-operand [np.where] broadcasts [count > 0] against the quotient
    of the row sums and [count]; one broadcast of the sums against the
    counts gives the same shape. *)
Definition single_shot_mean (singleshotdata : gmap string ndarray)
    (name : string) (cloudy : list Z) : result ndarray :=
  data <- getitem singleshotdata name;;
  data_reshaped_5 <- reshape_rows data 5;;
  first_layer <- index_col data_reshaped_5 0;;
  arr <- reshape_rows first_layer 15;;
  let arr := fmap clamp <$> rows arr in
  mean <- broadcast2 mean_or_sentinel (Qsum <$> arr) cloudy;;
  Ok (NdArray [length mean] mean).

Definition rearrange_calipso_the_single_shot_info (retv : DataObject)
    (singleshotdata : gmap string ndarray) : result DataObject :=
  data <- getitem singleshotdata "ssNumber_Layers_Found";;
  data_reshaped_15 <- reshape_rows data 15;;
  let single_shot_cloud_cleared_array :=
    (λ row, int8 (Z.of_nat (count_zeros row))) <$> rows data_reshaped_15 in
  let single_shot_cloud_cleared_array :=
    (λ c, int8 (15 - c)) <$> single_shot_cloud_cleared_array in
  retv <- setattr retv "number_cloudy_single_shots"
            (VArr (NdArray [length single_shot_cloud_cleared_array]
                     ((λ c, inject_Z (int8 c))
                        <$> single_shot_cloud_cleared_array)));;
  retv <- setattr retv "single_shot_data"
            (VArr (NdArray (shape data_reshaped_15)
                     (astype_int8 <$> flat data_reshaped_15)));;
  base_mean <- single_shot_mean singleshotdata "ssLayer_Base_Altitude"
                 single_shot_cloud_cleared_array;;
  retv <- setattr retv "average_cloud_base_single_shots" (VArr base_mean);;
  top_mean <- single_shot_mean singleshotdata "ssLayer_Top_Pressure"
                single_shot_cloud_cleared_array;;
  retv <- setattr retv "average_cloud_top_pressure_single_shots"
            (VArr top_mean);;
  top_mean <- single_shot_mean singleshotdata "ssLayer_Top_Altitude"
                single_shot_cloud_cleared_array;;
  retv <- setattr retv "average_cloud_top_single_shots" (VArr top_mean);;
  Ok retv.

(** ** The loader *)

(** What the loader observes of the outside: the handles it holds open
    and the lines it printed. *)
Record world := { open_files : list string; stdout : list string }.

Definition M (A : Type) : Type := world → world * result A.

Definition retM {A} (a : A) : M A := λ w, (w, Ok a).

Definition bindM {A B} (m : M A) (f : A → M B) : M B :=
  λ w, match m w with
       | (w', Ok a) => f a w'
       | (w', Err e) => (w', Err e)
       end.

Notation "x <~ m ;; f" := (bindM m (λ x, f))
  (at level 100, m at next level, right associativity).

Definition lift {A} (r : result A) : M A := λ w, (w, r).

Definition print (line : string) : M unit :=
  λ w, ({| open_files := open_files w; stdout := stdout w ++ [line] |}, Ok tt).

(** A file: its top-level members in the order [keys()] lists them. *)
Inductive h5item :=
  | Dataset (a : ndarray)
  | Group (members : gmap string ndarray).

Definition h5file : Type := list (string * h5item).
Definition filesystem : Type := string → option h5file.

Definition h5_keys (f : h5file) : list string := f.*1.

Definition h5_lookup (f : h5file) (name : string) : option h5item :=
  snd <$> List.find (λ kv, bool_decide (kv.1 = name)) f.

(** [h5py.File(filename, 'r')] *)
Definition h5_open (fs : filesystem) (filename : string) : M h5file :=
  λ w, match fs filename with
       | Some f => ({| open_files := filename :: open_files w;
                       stdout := stdout w |}, Ok f)
       | None => (w, Err OSError)
       end.

Fixpoint remove_first (x : string) (l : list string) : list string :=
  match l with
  | [] => []
  | y :: r => if decide (x = y) then r else y :: remove_first x r
  end.

(** [h5file.close()] *)
Definition h5_close (filename : string) : M unit :=
  λ w, ({| open_files := remove_first filename (open_files w);
           stdout := stdout w |}, Ok tt).

(** [h5file[group + "/" + name].value], with the [value] attribute of
    the datasets of h5py 2. *)
Definition h5_member_value (f : h5file) (group name : string) : result ndarray :=
  match h5_lookup f group with
  | Some (Group members) => getitem members name
  | _ => Err KeyError
  end.

(** Lines 283-286: [h5file[dataset].value], and [h5file[dataset][:]] when
    the member has no [value]; a group has neither. *)
Definition h5_read (f : h5file) (dataset : string) : result ndarray :=
  match h5_lookup f dataset with
  | Some (Dataset a) => Ok a
  | Some (Group _) => Err TypeError
  | None => Err KeyError
  end.

Definition scip_these_larger_variables_until_needed : list string :=
  ["Spacecraft_Position";
   "Attenuated_Backscatter_Statistics_1064";
   "Attenuated_Backscatter_Statistics_532";
   "Attenuated_Total_Color_Ratio_Statistics";
   "Volume_Depolarization_Ratio_Statistics";
   "Particulate_Depolarization_Ratio_Statistics";
   "Cirrus_Shape_Parameter";
   "Cirrus_Shape_Parameter_Invalid_Points";
   "Cirrus_Shape_Parameter_Uncertainty"].

Definition atrain_match_names : gmap string string :=
  <["Snow_Ice_Surface_Type" := "nsidc_surface_type"]>
    (<["Profile_Time" := "profile_time_tai"]> ∅).

Definition excluded_groups : list string :=
  ["Lidar_Surface_Detection"; "metadata_t"; "metadata"].

(** [str.lower] on the ASCII letters. *)
Definition lower_ascii (c : ascii) : ascii :=
  let n := nat_of_ascii c in
  if (65 <=? n) && (n <=? 90) then ascii_of_nat (n + 32) else c.

Fixpoint lower (s : string) : string :=
  match s with
  | EmptyString => EmptyString
  | String c r => String (lower_ascii c) (lower r)
  end.

(** Lines 280-282. *)
Definition canonical_name (dataset : string) : string :=
  let name := lower dataset in
  match atrain_match_names !! dataset with
  | Some renamed => renamed
  | None => name
  end.

(** The loop of lines 267-289. *)
Fixpoint load_loop (f : h5file) (keys : list string) (retv : DataObject)
  : M DataObject :=
  match keys with
  | [] => retM retv
  | dataset :: rest =>
      if decide (dataset ∈ ["Single_Shot_Detection"]) then load_loop f rest retv
      else if decide (dataset ∈ excluded_groups) then
        _ <~ print ("Not reading " +:+ dataset);; load_loop f rest retv
      else if decide (dataset ∈ scip_these_larger_variables_until_needed) then
        _ <~ print ("Not reading " +:+ dataset);; load_loop f rest retv
      else
        data <~ lift (h5_read f dataset);;
        retv <~ lift (setattr retv (canonical_name dataset) (VArr data));;
        load_loop f rest retv
  end.

Definition read_single_shot (f : h5file) (retv : DataObject) : M DataObject :=
  if decide ("Single_Shot_Detection" ∈ h5_keys f) then
    _ <~ print "Reading single shot information";;
    nlf <~ lift (h5_member_value f "Single_Shot_Detection" "ssNumber_Layers_Found");;
    lba <~ lift (h5_member_value f "Single_Shot_Detection" "ssLayer_Base_Altitude");;
    ltp <~ lift (h5_member_value f "Single_Shot_Detection" "ssLayer_Top_Pressure");;
    lta <~ lift (h5_member_value f "Single_Shot_Detection" "ssLayer_Top_Altitude");;
    lift (rearrange_calipso_the_single_shot_info retv
            (<["ssNumber_Layers_Found" := nlf]>
               (<["ssLayer_Base_Altitude" := lba]>
                  (<["ssLayer_Top_Pressure" := ltp]>
                     (<["ssLayer_Top_Altitude" := lta]> ∅)))))
  else retM retv.

Definition read_calipso_h5 (fs : filesystem) (filename : option string)
    (retv : DataObject) : M DataObject :=
  match filename with
  | Some filename =>
      h5file <~ h5_open fs filename;;
      retv <~ read_single_shot h5file retv;;
      retv <~ load_loop h5file (h5_keys h5file) retv;;
      _ <~ h5_close filename;;
      retM retv
  | None => retM retv
  end.

(** ** Calendar and clock *)

(** [datetime]'s proleptic Gregorian ordinal of a date. *)
Definition is_leap (y : Z) : bool :=
  ((y `mod` 4 =? 0) && (negb (y `mod` 100 =? 0) || (y `mod` 400 =? 0)))%Z.

Definition days_before_year (year : Z) : Z :=
  (let y := year - 1 in y * 365 + y / 4 - y / 100 + y / 400)%Z.

Definition days_in_month (year month : Z) : Z :=
  (if month =? 2 then (if is_leap year then 29 else 28)
   else if (month =? 4) || (month =? 6) || (month =? 9) || (month =? 11)
        then 30 else 31)%Z.

Definition days_before_month (year month : Z) : Z :=
  foldr Z.add 0%Z ((λ m, days_in_month year (Z.of_nat m))
                      <$> seq 1 (Z.to_nat month - 1)).

Definition ymd2ord (year month day : Z) : Z :=
  (days_before_year year + days_before_month year month + day)%Z.

(** Seconds from 1970-01-01 00:00:00 to a calendar time of the same
    clock. *)
Definition timegm (year month day hour minute second : Z) : Z :=
  ((ymd2ord year month day - ymd2ord 1970 1 1) * 86400
   + hour * 3600 + minute * 60 + second)%Z.

(** The interpreter's view of the local time zone.
    [std_offset_west t] is the offset of the zone's standard (non-DST)
    time, in seconds west of UTC, in force at wall-clock time [t];
    [timezone] is [time.timezone], the offset the interpreter derived for
    the zone when it started. *)
Record tzenv := { std_offset_west : Z → Z; timezone : Z }.

(** [time.mktime] on a tuple whose [tm_isdst] is 0: the fields are read as
    local standard time. *)
Definition mktime_std (env : tzenv) (year month day hour minute second : Z) : Z :=
  (let wall := timegm year month day hour minute second in
   wall + std_offset_west env wall)%Z.

(** Line 303. *)
Definition dsec (env : tzenv) : Z :=
  (mktime_std env 1993 1 1 0 0 0 - timezone env)%Z.

(** Lines 304-305. *)
Definition dsec2 : Z :=
  (let dt_days := ymd2ord 1993 1 1 - ymd2ord 1970 1 1 in
   dt_days * 24 * 60 * 60)%Z.

(** [retv.name = retv.name[:, 1]] *)
Definition select_column_1 (retv : DataObject) (name : string)
  : result DataObject :=
  v <- getattr retv name;;
  match v with
  | VNone => Err TypeError
  | VArr a => c <- index_col a 1;; setattr retv name (VArr c)
  end.

Definition read_calipso (env : tzenv) (fs : filesystem)
    (filename : option string) : M DataObject :=
  _ <~ print ("Reading file %s " +:+ default "None" filename);;
  let retv := CalipsoObject in
  retv <~ match filename with
          | Some _ => read_calipso_h5 fs filename retv
          | None => retM retv
          end;;
  let dsec := dsec env in
  let dsec2 := dsec2 in
  _ <~ (if decide (dsec ≠ dsec2) then print "WARNING" else retM tt);;
  retv <~ lift (select_column_1 retv "latitude");;
  retv <~ lift (select_column_1 retv "longitude");;
  retv <~ lift (select_column_1 retv "profile_time_tai");;
  profile_time_tai <~ lift (getattr retv "profile_time_tai");;
  match profile_time_tai with
  | VNone => lift (Err TypeError)
  | VArr a =>
      lift (setattr retv "sec_1970"
              (VArr (NdArray (shape a)
                       ((λ t, (t + inject_Z dsec)%Q) <$> flat a))))
  end.

(** ** Vocabulary of the properties *)

Definition collection (m : gmap string value) : DataObject :=
  {| all_arrays := Dict m |}.

(** A field that [len] accepts: [None] is never measured, an array needs
    at least one axis. *)
Definition sized (v : value) : Prop :=
  match v with
  | VNone => True
  | VArr a => shape a ≠ []
  end.

Definition value_empty (v : value) : bool :=
  match v with
  | VNone => true
  | VArr a => match shape a with
              | n :: _ => bool_decide (n = 0)
              | [] => true
              end
  end.

(** The fields of a record collection are null or arrays with a leading
    observation axis. *)
Definition sized_fields (m : gmap string value) : Prop :=
  map_Forall (λ _ v, sized v) m.

(** An empty collection: every field is null or zero-length. *)
Definition empty_fields (m : gmap string value) : Prop :=
  map_Forall (λ _ v, sized v ∧ value_empty v = true) m.

(** A non-empty collection: some field is an array of positive length. *)
Definition nonempty_fields (m : gmap string value) : Prop :=
  ∃ key a n rest, m !! key = Some (VArr a) ∧ shape a = S n :: rest.

(** The value that one loop iteration of [__add__] leaves under [key],
    when the first operand holds [sv] there. *)
Definition merged_value (key : string) (sv : value)
    (other : gmap string value) : result value :=
  match sv with
  | VNone => getitem other key
  | VArr a =>
      if decide (ndim a = 1 ∨ key ∈ segment_keys ∨ ndim a = 2)
      then ov <- getitem other key;;
           match np_concatenate sv ov with
           | Ok c => Ok (VArr c)
           | Err _ => Ok ov
           end
      else Ok sv
  end.

(** A one-dimensional array holding the given values. *)
Definition arr1 (l : list Q) : ndarray := NdArray [length l] l.

#[global] Instance sized_dec v : Decision (sized v).
Proof. destruct v; simpl; apply _. Defined.

(** Two collections over the schema [latitude], [longitude]: the first
    holds both fields, the second has no latitude. *)
Definition granule_full : gmap string value :=
  <["latitude" := VArr (arr1 [1; 2]%Q)]>
    (<["longitude" := VArr (arr1 [5]%Q)]> ∅).

Definition granule_without_latitude : gmap string value :=
  <["latitude" := VNone]> (<["longitude" := VArr (arr1 [3]%Q)]> ∅).

(** Two empty collections over the schema [latitude]: a fresh one, and
    one loaded with no observation. *)
Definition fresh_fields : gmap string value := <["latitude" := VNone]> ∅.

Definition zero_length_fields : gmap string value :=
  <["latitude" := VArr (arr1 [])]> ∅.

#[global] Instance sized_fields_dec m : Decision (sized_fields m).
Proof. unfold sized_fields. apply _. Defined.

#[global] Instance empty_fields_dec m : Decision (empty_fields m).
Proof. unfold empty_fields. apply _. Defined.

(** A collection whose latitude is a 2-D array of one row. *)
Definition granule_2d : gmap string value :=
  <["latitude" := VArr (NdArray [1; 2] [3; 4]%Q)]>
    (<["longitude" := VArr (arr1 [3]%Q)]> ∅).

(** *** The reducer in the words of its specification *)

(** The fifteen single shots of footprint [i], in a flat array that
    stores [per_shot] values for every single shot: the first value of
    each shot. *)
Definition footprint_shots (per_shot : nat) (l : list Q) (i : nat) : list Q :=
  (λ j, nth ((15 * i + j) * per_shot) l 0%Q) <$> seq 0 15.

(** Number of clear shots: the entries equal to zero. *)
Definition spec_clear_count (shots : list Q) : Z :=
  foldr (λ x acc, if Qeq_bool x 0 then (acc + 1)%Z else acc) 0%Z shots.

Definition spec_cloudy_count (layers : list Q) (i : nat) : Z :=
  (15 - spec_clear_count (footprint_shots 1 layers i))%Z.

(** Negative-or-zero values count as 0.0. *)
Definition spec_clamp (x : Q) : Q := if Qle_bool x 0 then 0%Q else x.

(** Sum of the clamped values over the cloudy count, and -9.0 when no
    shot is cloudy. *)
Definition spec_mean (cloudy : Z) (shots : list Q) : Q :=
  if (cloudy =? 0)%Z then (-9 # 1)%Q
  else (Qsum (spec_clamp <$> shots) / inject_Z cloudy)%Q.

Definition spec_cloudy (layers : list Q) (n : nat) : ndarray :=
  NdArray [n] ((λ i, inject_Z (spec_cloudy_count layers i)) <$> seq 0 n).

Definition spec_means (layers values : list Q) (n : nat) : ndarray :=
  NdArray [n]
    ((λ i, spec_mean (spec_cloudy_count layers i) (footprint_shots 5 values i))
       <$> seq 0 n).

(** The single-shot group of a file with [n] footprints: fifteen layer
    counts per footprint, and five values per single shot in the three
    other arrays. *)
Record valid_single_shot (singleshotdata : gmap string ndarray) (n : nat)
    (nlf lba ltp lta : ndarray) : Prop := {
  vss_nlf : singleshotdata !! "ssNumber_Layers_Found" = Some nlf;
  vss_lba : singleshotdata !! "ssLayer_Base_Altitude" = Some lba;
  vss_ltp : singleshotdata !! "ssLayer_Top_Pressure" = Some ltp;
  vss_lta : singleshotdata !! "ssLayer_Top_Altitude" = Some lta;
  vss_nlf_size : size nlf = 15 * n;
  vss_lba_size : size lba = 75 * n;
  vss_ltp_size : size ltp = 75 * n;
  vss_lta_size : size lta = 75 * n
}.

(** One footprint: three clear shots out of fifteen. *)
Definition layers_3_clear : list Q :=
  [0; 0; 0; 1; 1; 1; 1; 1; 1; 1; 1; 1; 1; 1; 1]%Q.

(** One footprint whose fifteen single shots all report a layer. *)
Definition layers_all_cloudy : list Q := replicate 15 1%Q.

(** One footprint whose seventy-five values are all zero. *)
Definition values_all_zero : list Q := replicate 75 0%Q.

(** The single-shot group of [n] footprints with the given layer counts,
    and the same values for the three other arrays. *)
Definition single_shot_group (n : nat) (layers base : list Q)
  : gmap string ndarray :=
  <["ssNumber_Layers_Found" := NdArray [15 * n; 1] layers]>
    (<["ssLayer_Base_Altitude" := NdArray [15 * n; 5] base]>
       (<["ssLayer_Top_Pressure" := NdArray [15 * n; 5] base]>
          (<["ssLayer_Top_Altitude" := NdArray [15 * n; 5] base]> ∅))).

(** One footprint without any cloudy single shot. *)
Definition layers_all_clear : list Q := replicate 15 0%Q.

(** One footprint with five cloudy shots, and base altitudes whose first
    layers are -1 for the ten clear shots and 10 for the cloudy ones. *)
Definition layers_5_cloudy : list Q := replicate 10 0%Q ++ replicate 5 1%Q.

Definition base_sum_50 : list Q :=
  concat (replicate 10 [-1; 7; 7; 7; 7]%Q)
  ++ concat (replicate 5 [10; 7; 7; 7; 7]%Q).

(** *** Vocabulary of the loader's properties *)

(** A top-level member that the loop of [read_calipso_h5] reads: not the
    single-shot group, not an excluded group, not in the skip-list. *)
Definition eligible (dataset : string) : Prop :=
  (dataset ∉ ["Single_Shot_Detection"])
  ∧ (dataset ∉ excluded_groups)
  ∧ (dataset ∉ scip_these_larger_variables_until_needed).

#[global] Instance eligible_dec dataset : Decision (eligible dataset).
Proof. unfold eligible. apply _. Defined.

(** A file the loader accepts: member names are distinct, every eligible
    member is a dataset whose canonical name is a field name, and the
    single-shot group, when there is one, is well-shaped. *)
Record valid_file (f : h5file) : Prop := {
  vf_names : NoDup (h5_keys f);
  vf_datasets : ∀ dataset item,
    (dataset, item) ∈ f → eligible dataset → ∃ a, item = Dataset a;
  vf_fields : ∀ dataset,
    dataset ∈ h5_keys f → eligible dataset →
    canonical_name dataset ≠ "all_arrays";
  vf_single_shot :
    "Single_Shot_Detection" ∈ h5_keys f →
    ∃ members n nlf lba ltp lta,
      h5_lookup f "Single_Shot_Detection" = Some (Group members)
      ∧ valid_single_shot members n nlf lba ltp lta
}.

(** The effect of one loop iteration on the fields. *)
Definition load_step (f : h5file) (m : gmap string value) (dataset : string)
  : gmap string value :=
  if decide (eligible dataset) then
    match h5_read f dataset with
    | Ok a => <[canonical_name dataset := VArr a]> m
    | Err _ => m
    end
  else m.

(** A granule of two profiles with three columns per profile, its
    single-shot group, a skipped member and an excluded group. *)
Definition granule_file : h5file :=
  [("Latitude", Dataset (NdArray [2; 3] [10; 11; 12; 20; 21; 22]%Q));
   ("Longitude", Dataset (NdArray [2; 3] [30; 31; 32; 40; 41; 42]%Q));
   ("Profile_Time", Dataset (NdArray [2; 3] [100; 101; 102; 200; 201; 202]%Q));
   ("Single_Shot_Detection",
    Group (single_shot_group 2 (layers_3_clear ++ layers_all_cloudy)
             (values_all_zero ++ values_all_zero)));
   ("Spacecraft_Position", Dataset (NdArray [2; 1; 1] [7; 8]%Q));
   ("metadata", Group ∅)].

(** The same granule with a group that is neither excluded nor skipped
    between its datasets. *)
Definition granule_with_unknown_group : h5file :=
  [("Latitude", Dataset (NdArray [2; 3] [10; 11; 12; 20; 21; 22]%Q));
   ("Lidar_Data_Altitudes", Group ∅);
   ("Longitude", Dataset (NdArray [2; 3] [30; 31; 32; 40; 41; 42]%Q))].

Definition disk : filesystem :=
  λ filename,
    if decide (filename = "granule.h5") then Some granule_file
    else if decide (filename = "unknown_group.h5")
         then Some granule_with_unknown_group
         else None.

Definition idle : world := {| open_files := []; stdout := [] |}.

(** A zone at UTC, and a zone whose standard time was two hours east of
    UTC until September 2016 and is three hours east since, as in
    Europe/Istanbul. *)
Definition utc_zone : tzenv :=
  {| std_offset_west := λ _, 0%Z; timezone := 0%Z |}.

Definition istanbul_zone : tzenv :=
  {| std_offset_west := λ t, (if t <? 1473206400 then -7200 else -10800)%Z;
     timezone := (-10800)%Z |}.

(** The field that a run of the loader left under [name], if it
    returned a collection. *)
Definition field_of (run : world * result DataObject) (name : string)
  : option value :=
  match run.2 with
  | Ok r => match all_arrays r with
            | Dict m => m !! name
            | NotDict _ => None
            end
  | Err _ => None
  end.

(** A collection whose latitude is a zero-dimensional array, and one
    without the longitude field. *)
Definition granule_scalar : gmap string value :=
  <["latitude" := VArr (NdArray [] [7]%Q)]>
    (<["longitude" := VArr (arr1 [3]%Q)]> ∅).

Definition granule_latitude_only : gmap string value :=
  <["latitude" := VArr (arr1 [4]%Q)]> ∅.

(** A collection whose latitude is a 2-D array of two rows. *)
Definition granule_2d_two_rows : gmap string value :=
  <["latitude" := VArr (NdArray [2; 2] [5; 6; 7; 8]%Q)]>
    (<["longitude" := VArr (arr1 [3]%Q)]> ∅).

(** The five fields that the reducer assigns, and its three means. *)
Definition reducer_means : list string :=
  ["average_cloud_base_single_shots";
   "average_cloud_top_pressure_single_shots";
   "average_cloud_top_single_shots"].

Definition reducer_fields : list string :=
  "number_cloudy_single_shots" :: "single_shot_data" :: reducer_means.

(** The base altitudes of [base_sum_50] with other values in the layers
    above the first. *)
Definition base_sum_50_other_layers : list Q :=
  concat (replicate 10 [-1; 8; 9; 8; 9]%Q)
  ++ concat (replicate 5 [10; 11; 12; 13; 14]%Q).

(** Three footprints of layer counts and two footprints of values. *)
Definition layers_three_footprints : list Q := replicate 45 1%Q.
Definition values_two_footprints : list Q := replicate 150 2%Q.

(** A single-shot group with three footprints of layer counts and two
    footprints of values. *)
Definition mismatched_group : gmap string ndarray :=
  <["ssNumber_Layers_Found" := NdArray [45; 1] layers_three_footprints]>
    (<["ssLayer_Base_Altitude" := NdArray [30; 5] values_two_footprints]>
       (<["ssLayer_Top_Pressure" := NdArray [30; 5] values_two_footprints]>
          (<["ssLayer_Top_Altitude" := NdArray [30; 5] values_two_footprints]>
             ∅))).

(** A top-level member that the loop reports and does not read. *)
Definition skipped (dataset : string) : Prop :=
  (dataset ∉ ["Single_Shot_Detection"])
  ∧ ((dataset ∈ excluded_groups)
     ∨ (dataset ∈ scip_these_larger_variables_until_needed)).

#[global] Instance skipped_dec dataset : Decision (skipped dataset).
Proof. unfold skipped. apply _. Defined.

(** The lines that the loop prints for the given member names. *)
Definition notes (keys : list string) : list string :=
  (λ dataset, "Not reading " +:+ dataset) <$> filter skipped keys.

(** The line printed when the file has a single-shot group. *)
Definition single_shot_note (f : h5file) : list string :=
  if decide ("Single_Shot_Detection" ∈ h5_keys f)
  then ["Reading single shot information"] else [].

(** *** Vocabulary of [read_calipso]'s properties *)

(** Column 1 of a 2-D array of [n] rows and [c] columns. *)
Definition column_1 (n c : nat) (l : list Q) : ndarray :=
  NdArray [n] ((λ i, nth (i * c + 1) l 0%Q) <$> seq 0 n).

(** A field holding a 2-D array of [n] rows and at least two columns. *)
Definition holds_2d (m : gmap string value) (name : string)
    (n c : nat) (l : list Q) : Prop :=
  m !! name = Some (VArr (NdArray [n; c] l)) ∧ 1 < c ∧ length l = c * n.

(** A field from which [[:, 1]] cannot be taken: null, or an array with
    fewer than two axes or fewer than two columns. *)
Definition lacks_column_1 (v : value) : Prop :=
  match v with
  | VNone => True
  | VArr a => match shape a with
              | _ :: c :: _ => c ≤ 1
              | _ => True
              end
  end.

(** The world after the first line that [read_calipso] prints. *)
Definition announced (filename : option string) (w : world) : world :=
  {| open_files := open_files w;
     stdout := stdout w ++ ["Reading file %s " +:+ default "None" filename] |}.

(** Lines 317-322 of [read_calipso] as a function of the loaded
    collection. *)
Definition adopt_variables (dsec : Z) (retv : DataObject) : result DataObject :=
  retv <- select_column_1 retv "latitude";;
  retv <- select_column_1 retv "longitude";;
  retv <- select_column_1 retv "profile_time_tai";;
  profile_time_tai <- getattr retv "profile_time_tai";;
  match profile_time_tai with
  | VNone => Err TypeError
  | VArr a =>
      setattr retv "sec_1970"
        (VArr (NdArray (shape a) ((λ t, (t + inject_Z dsec)%Q) <$> flat a)))
  end.

(** The line printed when the two computations of the offset differ. *)
Definition offset_warning (env : tzenv) : list string :=
  if decide (dsec env ≠ dsec2) then ["WARNING"] else [].

(** The outcome and the fields of a run of the loader. *)
Definition fields_of_run (run : world * result DataObject)
  : gmap string value :=
  match run.2 with
  | Ok r => match all_arrays r with
            | Dict m => m
            | NotDict _ => ∅
            end
  | Err _ => ∅
  end.

(** A granule whose longitude has a single column. *)
Definition granule_narrow_longitude : h5file :=
  [("Latitude", Dataset (NdArray [2; 3] [10; 11; 12; 20; 21; 22]%Q));
   ("Longitude", Dataset (NdArray [2; 1] [30; 40]%Q));
   ("Profile_Time", Dataset (NdArray [2; 3] [100; 101; 102; 200; 201; 202]%Q))].

Definition disk_narrow : filesystem :=
  λ filename,
    if decide (filename = "narrow.h5") then Some granule_narrow_longitude
    else None.

(** Whether a run of the loader returned a collection. *)
Definition returns_collection (run : world * result DataObject) : bool :=
  match run.2 with
  | Ok r => match all_arrays r with
            | Dict _ => true
            | NotDict _ => false
            end
  | Err _ => false
  end.

(** *** Collections that can be merged field by field *)

(** Two values of one field that [__add__] can join: both null, or two
    arrays that agree on every dimension but the first. *)
Definition stackable (x y : value) : Prop :=
  match x, y with
  | VNone, VNone => True
  | VArr a, VArr b => ∃ n m rest, shape a = n :: rest ∧ shape b = m :: rest
  | _, _ => False
  end.

(** Two collections with the same fields, stackable field by field. *)
Definition uniform_fields (x y : gmap string value) : Prop :=
  ∀ key, match x !! key, y !! key with
         | Some a, Some b => stackable a b
         | None, None => True
         | _, _ => False
         end.

(** What [__add__] leaves in a field that holds the stackable values
    [x] and [y]. *)
Definition stacked (key : string) (x y : value) : value :=
  match x, y with
  | VArr a, VArr b =>
      if decide (ndim a = 1 ∨ key ∈ segment_keys ∨ ndim a = 2)
      then VArr (NdArray ((hd 0 (shape a) + hd 0 (shape b)) :: tail (shape a))
                   (flat a ++ flat b))
      else VArr a
  | _, _ => y
  end.

(** A third granule over the schema [latitude], [longitude]. *)
Definition granule_third : gmap string value :=
  <["latitude" := VArr (arr1 [8; 9]%Q)]>
    (<["longitude" := VArr (arr1 [6]%Q)]> ∅).

(** A second granule over the schema [latitude], [longitude]. *)
Definition granule_second : gmap string value :=
  <["latitude" := VArr (arr1 [4]%Q)]>
    (<["longitude" := VArr (arr1 [7]%Q)]> ∅).

(** A file with two datasets of the same canonical name. *)
Definition granule_two_times : h5file :=
  [("Latitude", Dataset (NdArray [1; 2] [10; 11]%Q));
   ("Profile_Time", Dataset (NdArray [1; 2] [100; 101]%Q));
   ("profile_time_tai", Dataset (NdArray [1; 2] [500; 501]%Q))].

Definition disk_two_times : filesystem :=
  λ filename,
    if decide (filename = "two_times.h5") then Some granule_two_times
    else None.

(** *** Lowercase names, stated on the characters *)

(** An upper-case ASCII letter. *)
Definition is_upper (c : ascii) : bool :=
  let n := nat_of_ascii c in (65 <=? n) && (n <=? 90).

(** [d] is [c], or [c] is an upper-case letter and [d] the letter 32
    codes above it, its lower-case form. *)
Definition case_pair (c d : ascii) : Prop :=
  c = d ∨ (is_upper c = true ∧ nat_of_ascii d = nat_of_ascii c + 32).

Definition no_uppercase (s : string) : Prop :=
  Forall (λ c, is_upper c = false) (list_ascii_of_string s).

(** [t] is [s] in lower case: the same characters up to the case of the
    letters, and no upper-case letter. *)
Definition lowercase_of (s t : string) : Prop :=
  Forall2 case_pair (list_ascii_of_string s) (list_ascii_of_string t)
  ∧ no_uppercase t.

(** [name] is the canonical name of [dataset]: the entry of the rename
    map when there is one, the dataset name in lower case otherwise. *)
Definition names_field (dataset name : string) : Prop :=
  match atrain_match_names !! dataset with
  | Some renamed => name = renamed
  | None => lowercase_of dataset name
  end.

#[global] Instance case_pair_dec c d : Decision (case_pair c d).
Proof. unfold case_pair. apply _. Defined.

#[global] Instance no_uppercase_dec s : Decision (no_uppercase s).
Proof. unfold no_uppercase. apply _. Defined.

#[global] Instance lowercase_of_dec s t : Decision (lowercase_of s t).
Proof. unfold lowercase_of. apply _. Defined.

#[global] Instance names_field_dec dataset name :
  Decision (names_field dataset name).
Proof.
  unfold names_field. destruct (atrain_match_names !! dataset); apply _.
Defined.


(** ** Properties of the record collection *)

Section Collection.

Implicit Types (m self other : gmap string value) (v sv ov : value).
Implicit Types (key : string) (a b : ndarray).

Lemma np_concatenate_error x y e :
  np_concatenate x y = Err e → e = ValueError.
Proof.
  unfold np_concatenate.
  destruct x as [|a], y as [|b]; try congruence.
  destruct (shape a), (shape b); try congruence.
  case_decide; congruence.
Qed.

Lemma field_nonempty_sized v :
  sized v → field_nonempty v = Ok (negb (value_empty v)).
Proof.
  destruct v as [|a]; simpl; [done|].
  unfold np_len. destruct (shape a) as [|n rest]; [done|]. intros _. simpl.
  f_equal. repeat case_bool_decide; simpl; (done || lia).
Qed.

Lemma is_empty_loop_sized vals acc :
  Forall sized vals →
  is_empty_loop vals acc = Ok (acc && forallb value_empty vals).
Proof.
  intros Hs. revert acc.
  induction Hs as [|v vals Hv _ IH]; intros acc; simpl.
  - by rewrite andb_true_r.
  - rewrite (field_nonempty_sized _ Hv). simpl. rewrite IH.
    f_equal. destruct (value_empty v), acc; simpl; done.
Qed.

Lemma sized_fields_values m :
  sized_fields m → Forall sized ((map_to_list m).*2).
Proof.
  intros Hm. apply Forall_forall. intros v Hin.
  apply list_elem_of_fmap in Hin as [[k v'] [-> Hkv]].
  apply elem_of_map_to_list in Hkv. exact (Hm _ _ Hkv).
Qed.

Lemma empty_fields_sized m : empty_fields m → sized_fields m.
Proof. intros H k v Hkv. exact (proj1 (H k v Hkv)). Qed.

Lemma is_empty_yes m :
  empty_fields m → is_empty_loop ((map_to_list m).*2) true = Ok true.
Proof.
  intros He.
  rewrite is_empty_loop_sized by (apply sized_fields_values, empty_fields_sized, He).
  simpl. f_equal. apply forallb_forall. intros v Hin.
  rewrite <- list_elem_of_In in Hin.
  apply list_elem_of_fmap in Hin as [[k v'] [-> Hkv]].
  apply elem_of_map_to_list in Hkv. exact (proj2 (He _ _ Hkv)).
Qed.

Lemma is_empty_no m :
  sized_fields m → nonempty_fields m →
  is_empty_loop ((map_to_list m).*2) true = Ok false.
Proof.
  intros Hs (key & a & n & rest & Hk & Hsh).
  rewrite is_empty_loop_sized by (apply sized_fields_values, Hs).
  simpl. f_equal. apply not_true_is_false. intros Hall.
  rewrite forallb_forall in Hall.
  specialize (Hall (VArr a)). simpl in Hall. rewrite Hsh in Hall.
  assert (In (VArr a) (map_to_list m).*2) as Hin.
  { rewrite <- list_elem_of_In. apply list_elem_of_fmap. exists (key, VArr a).
    split; [done|]. by apply elem_of_map_to_list. }
  specialize (Hall Hin). by apply bool_decide_eq_true in Hall.
Qed.

Lemma add_key_merged key self other sv :
  self !! key = Some sv →
  add_key key self other
  = (v <- merged_value key sv other;; Ok (<[key := v]> self)).
Proof.
  intros Hk. unfold add_key, getitem at 1. rewrite Hk. simpl.
  destruct sv as [|a]; simpl; [done|].
  case_decide as Hg; [done|clear Hg].
  unfold concat_or_replace.
  assert (∀ r : result (gmap string value),
    (ov <- getitem other key;;
     match np_concatenate (VArr a) ov with
     | Ok c => Ok (<[key:=VArr c]> self)
     | Err ValueError => Ok (<[key:=ov]> self)
     | Err e => Err e
     end)
    = (v <- (ov <- getitem other key;;
             match np_concatenate (VArr a) ov with
             | Ok c => Ok (VArr c)
             | Err _ => Ok ov
             end);; Ok (<[key:=v]> self))) as Hc.
  { intros _. destruct (getitem other key) as [ov|e]; simpl; [|done].
    destruct (np_concatenate (VArr a) ov) as [c|e] eqn:Hcat; simpl; [done|].
    apply np_concatenate_error in Hcat as ->. done. }
  specialize (Hc (Ok self)).
  repeat case_decide; try done; try tauto.
  simpl. by rewrite insert_id.
Qed.

Lemma merged_value_error key sv other e :
  merged_value key sv other = Err e → e = KeyError.
Proof.
  unfold merged_value, getitem.
  destruct sv as [|a].
  - destruct (other !! key); congruence.
  - case_decide; [|congruence].
    destruct (other !! key) as [ov|]; simpl; [|congruence].
    destruct (np_concatenate (VArr a) ov); congruence.
Qed.

(** What the loop leaves behind, key by key. *)
Lemma add_loop_lookup keys : ∀ self other r,
  NoDup keys →
  (∀ key, key ∈ keys → is_Some (self !! key)) →
  add_loop keys self other = Ok r →
  (∀ key sv, key ∈ keys → self !! key = Some sv →
             merged_value key sv other = Ok (default VNone (r !! key))
             ∧ is_Some (r !! key))
  ∧ (∀ key, key ∉ keys → r !! key = self !! key).
Proof.
  induction keys as [|k keys IH]; intros self other r Hnd Hin Hrun.
  - simpl in Hrun. injection Hrun as <-. split; [|done].
    intros key sv Hk. by apply elem_of_nil in Hk.
  - simpl in Hrun. apply NoDup_cons in Hnd as [Hk Hnd].
    destruct (Hin k) as [sk Hsk]; [left|].
    rewrite (add_key_merged _ _ _ _ Hsk) in Hrun.
    destruct (merged_value k sk other) as [vk|] eqn:Hm; [|done].
    simpl in Hrun.
    apply IH in Hrun as [Hin' Hout]; [|done|].
    2:{ intros key Hkey. destruct (decide (k = key)) as [->|Hne].
        - rewrite lookup_insert_eq. eauto.
        - rewrite lookup_insert_ne by done. apply Hin. by right. }
    split.
    + intros key sv Hkey Hsv.
      apply elem_of_cons in Hkey as [->|Hkey].
      * rewrite (Hout k Hk), lookup_insert_eq. simpl.
        rewrite Hsk in Hsv. injection Hsv as <-. eauto.
      * apply Hin'; [done|]. rewrite lookup_insert_ne; [done|].
        intros ->. done.
    + intros key Hkey. apply not_elem_of_cons in Hkey as [Hne Hkey].
      rewrite (Hout key Hkey). by rewrite lookup_insert_ne.
Qed.

(** The loop completes when every key of the first operand can be
    merged, which only a key missing from the second operand prevents. *)
Lemma add_loop_total keys : ∀ self other,
  NoDup keys →
  (∀ key, key ∈ keys → is_Some (self !! key)) →
  (∀ key, key ∈ keys → is_Some (other !! key)) →
  ∃ r, add_loop keys self other = Ok r.
Proof.
  induction keys as [|k keys IH]; intros self other Hnd Hin Hother.
  - by exists self.
  - simpl. apply NoDup_cons in Hnd as [Hk Hnd].
    destruct (Hin k) as [sk Hsk]; [left|].
    destruct (Hother k) as [ok Hok]; [left|].
    rewrite (add_key_merged _ _ _ _ Hsk).
    assert (∃ vk, merged_value k sk other = Ok vk) as [vk ->].
    { unfold merged_value, getitem. rewrite Hok. destruct sk as [|a]; eauto.
      case_decide; eauto. simpl.
      destruct (np_concatenate (VArr a) ok); eauto. }
    simpl. apply IH; [done| |].
    + intros key Hkey. destruct (decide (k = key)) as [->|Hne].
      * rewrite lookup_insert_eq. eauto.
      * rewrite lookup_insert_ne by done. apply Hin. by right.
    + intros key Hkey. apply Hother. by right.
Qed.

Lemma add_loop_error keys : ∀ self other e,
  add_loop keys self other = Err e → e = KeyError.
Proof.
  induction keys as [|k keys IH]; intros self other e Hrun; [done|].
  simpl in Hrun.
  destruct (add_key k self other) as [self'|e'] eqn:Hk; simpl in Hrun.
  - by eapply IH.
  - injection Hrun as <-. unfold add_key, getitem at 1 in Hk.
    destruct (self !! k) as [sk|] eqn:Hsk; simpl in Hk; [|congruence].
    assert (add_key k self other = Err e') as Hk'.
    { unfold add_key, getitem at 1. by rewrite Hsk. }
    rewrite (add_key_merged _ _ _ _ Hsk) in Hk'.
    destruct (merged_value k sk other) eqn:Hm; [done|].
    injection Hk' as <-. by eapply merged_value_error.
Qed.

Lemma keys_of_fields m key : key ∈ (map_to_list m).*1 ↔ is_Some (m !! key).
Proof.
  rewrite list_elem_of_fmap. split.
  - intros [[k v] [-> Hkv]]. apply elem_of_map_to_list in Hkv. eauto.
  - intros [v Hv]. exists (key, v). split; [done|].
    by apply elem_of_map_to_list.
Qed.

(** Two non-empty collections over one schema: [+] runs the loop to its
    end, and each field of the first operand holds its merged value. *)
Lemma add_nonempty self other :
  sized_fields self → sized_fields other →
  nonempty_fields self → nonempty_fields other →
  dom self ⊆ dom other →
  ∃ r, add (collection self) (collection other) = Ok (collection r)
       ∧ ∀ key sv, self !! key = Some sv →
           ∃ v, merged_value key sv other = Ok v ∧ r !! key = Some v.
Proof.
  intros Hs Ho Hns Hno Hdom.
  destruct (add_loop_total ((map_to_list self).*1) self other) as [r Hr].
  - apply NoDup_fst_map_to_list.
  - intros key. by rewrite keys_of_fields.
  - intros key Hkey. apply keys_of_fields in Hkey.
    apply elem_of_dom. apply Hdom. by apply elem_of_dom.
  - exists r. split.
    + unfold add, collection. simpl.
      rewrite (is_empty_no _ Hs Hns). simpl.
      rewrite (is_empty_no _ Ho Hno). simpl. by rewrite Hr.
    + intros key sv Hsv.
      apply add_loop_lookup in Hr as [Hin _].
      * destruct (Hin key sv) as [Hm [v Hv]]; [|done|].
        { apply keys_of_fields. eauto. }
        exists v. rewrite Hv in Hm. done.
      * apply NoDup_fst_map_to_list.
      * intros k. by rewrite keys_of_fields.
Qed.

End Collection.

(** ** Concatenation of record collections *)

Section Concatenation.

Implicit Types (self other c : gmap string value) (v : value).
Implicit Types (key : string) (a b : ndarray).

Lemma is_empty_loop_error vals acc (e : exn) :
  is_empty_loop vals acc = Err e → e = TypeError.
Proof.
  revert acc. induction vals as [|v vals IH]; intros acc; simpl; [done|].
  destruct v as [|a]; simpl; [by apply IH|].
  unfold np_len. destruct (shape a); simpl; [congruence|by apply IH].
Qed.

Lemma is_empty_total c :
  sized_fields c →
  ∃ flag : bool, is_empty_loop ((map_to_list c).*2) true = Ok flag.
Proof.
  intros Hs. eexists. apply is_empty_loop_sized, sized_fields_values, Hs.
Qed.


(** C8.  For two non-empty collections over one schema, a field that
    holds 1-D arrays of lengths [m] and [n] holds, after [+], the 1-D
    array of length [m + n] made of the first operand's values followed
    by the second operand's. *)
Theorem add_concatenates_1d self other key a b (m n : nat) :
  sized_fields self → sized_fields other →
  nonempty_fields self → nonempty_fields other →
  dom self ⊆ dom other →
  self !! key = Some (VArr a) → other !! key = Some (VArr b) →
  shape a = [m] → shape b = [n] → wf_array a → wf_array b →
  ∃ r (ab : ndarray),
    add (collection self) (collection other) = Ok (collection r)
    ∧ r !! key = Some (VArr ab)
    ∧ shape ab = [m + n]
    ∧ length (flat ab) = m + n
    ∧ take m (flat ab) = flat a
    ∧ drop m (flat ab) = flat b.
Proof.
  intros Hs Ho Hns Hno Hdom Ha Hb Hsa Hsb Hwa Hwb.
  destruct (add_nonempty self other) as (r & Hr & Hfields); try done.
  destruct (Hfields key _ Ha) as (v & Hv & Hrv).
  unfold merged_value in Hv. unfold ndim in Hv. rewrite Hsa in Hv.
  rewrite decide_True in Hv by (by left).
  unfold getitem in Hv. rewrite Hb in Hv. simpl in Hv.
  unfold np_concatenate in Hv. rewrite Hsa, Hsb in Hv.
  rewrite decide_True in Hv by done. injection Hv as <-.
  unfold wf_array in Hwa, Hwb. rewrite Hsa in Hwa. rewrite Hsb in Hwb.
  simpl in Hwa, Hwb. rewrite Nat.mul_1_r in Hwa, Hwb.
  eexists r, _. split; [done|]. split; [done|]. simpl.
  split; [done|]. split; [rewrite length_app; lia|].
  rewrite <- Hwa. split.
  - by rewrite take_app_length.
  - by rewrite drop_app_length.
Qed.

(** C5, as the code has it.  For two non-empty collections over one
    schema, a field that is null in the first operand and present in the
    second holds, after [+], the second operand's value. *)
Theorem add_takes_field_of_second_operand self other key v :
  sized_fields self → sized_fields other →
  nonempty_fields self → nonempty_fields other →
  dom self ⊆ dom other →
  self !! key = Some VNone → other !! key = Some v →
  ∃ r, add (collection self) (collection other) = Ok (collection r)
       ∧ r !! key = Some v.
Proof.
  intros Hs Ho Hns Hno Hdom Hself Hother.
  destruct (add_nonempty self other) as (r & Hr & Hfields); try done.
  exists r. split; [done|].
  destruct (Hfields key _ Hself) as (v' & Hv & ->).
  simpl in Hv. unfold getitem in Hv. rewrite Hother in Hv. congruence.
Qed.

(** The other direction: a 1-D or 2-D array of the first operand is
    replaced by the null of the second. *)
Lemma add_drops_array_against_null self other key a :
  sized_fields self → sized_fields other →
  nonempty_fields self → nonempty_fields other →
  dom self ⊆ dom other →
  self !! key = Some (VArr a) → ndim a = 1 ∨ ndim a = 2 →
  other !! key = Some VNone →
  ∃ r, add (collection self) (collection other) = Ok (collection r)
       ∧ r !! key = Some VNone.
Proof.
  intros Hs Ho Hns Hno Hdom Hself Hrank Hother.
  destruct (add_nonempty self other) as (r & Hr & Hfields); try done.
  exists r. split; [done|].
  destruct (Hfields key _ Hself) as (v' & Hv & ->).
  unfold merged_value in Hv. rewrite decide_True in Hv by tauto.
  unfold getitem in Hv. rewrite Hother in Hv. simpl in Hv. congruence.
Qed.


(** C7, as the code has it.  For an empty collection [e]: [e + c]
    returns [c] for every collection [c], and [c + e] returns [c] for
    every non-empty [c]. *)
Theorem add_empty_absorbed c (e : gmap string value) :
  sized_fields c → empty_fields e →
  add (collection e) (collection c) = Ok (collection c)
  ∧ (nonempty_fields c →
     add (collection c) (collection e) = Ok (collection c)).
Proof.
  intros Hc He. split.
  - unfold add. simpl. rewrite (is_empty_yes _ He). simpl.
    destruct (is_empty_total c Hc) as [flag ->]. done.
  - intros Hn. unfold add. simpl.
    rewrite (is_empty_no _ Hc Hn). simpl.
    rewrite (is_empty_yes _ He). done.
Qed.

End Concatenation.

(** Closed goals over concrete collections are settled by evaluation. *)
Ltac by_evaluation := apply (bool_decide_unpack _); vm_compute; exact I.



Lemma add_concatenates_1d_witness :
  ∃ r ab, add (collection granule_full) (collection granule_2d)
          = Ok (collection r)
          ∧ r !! "longitude" = Some (VArr ab)
          ∧ shape ab = [1 + 1]
          ∧ length (flat ab) = 1 + 1
          ∧ take 1 (flat ab) = [5%Q]
          ∧ drop 1 (flat ab) = [3%Q].
Proof.
  apply (add_concatenates_1d granule_full granule_2d "longitude"
           (arr1 [5]%Q) (arr1 [3]%Q) 1 1).
  - by_evaluation.
  - by_evaluation.
  - exists "latitude", (arr1 [1; 2]%Q), 1, []. split; reflexivity.
  - exists "longitude", (arr1 [3]%Q), 0, []. split; reflexivity.
  - by_evaluation.
  - reflexivity.
  - reflexivity.
  - reflexivity.
  - reflexivity.
  - reflexivity.
  - reflexivity.
Defined.

(** C5 fails on the code: a latitude held by the first operand only is
    null after [+], although the second operand has no value for it. *)
Lemma add_loses_field_of_first_operand :
  granule_full !! "latitude" = Some (VArr (arr1 [1; 2]%Q))
  ∧ granule_without_latitude !! "latitude" = Some VNone
  ∧ ∃ r, add (collection granule_full) (collection granule_without_latitude)
         = Ok (collection r)
         ∧ r !! "latitude" = Some VNone
         ∧ r !! "latitude" ≠ Some (VArr (arr1 [1; 2]%Q)).
Proof.
  split; [reflexivity|]. split; [reflexivity|].
  eexists. split; [vm_compute; reflexivity|].
  split; [reflexivity|]. vm_compute. discriminate.
Qed.

Lemma add_takes_field_of_second_operand_witness :
  ∃ r, add (collection granule_without_latitude) (collection granule_full)
       = Ok (collection r)
       ∧ r !! "latitude" = Some (VArr (arr1 [1; 2]%Q)).
Proof.
  apply (add_takes_field_of_second_operand granule_without_latitude
           granule_full "latitude" (VArr (arr1 [1; 2]%Q))).
  - by_evaluation.
  - by_evaluation.
  - exists "longitude", (arr1 [3]%Q), 0, []. split; reflexivity.
  - exists "latitude", (arr1 [1; 2]%Q), 1, []. split; reflexivity.
  - by_evaluation.
  - reflexivity.
  - reflexivity.
Defined.

(** C7 fails on the code when the first operand is itself empty: the
    sum of a fresh collection and a zero-length one is the zero-length
    one, whose latitude differs from the fresh collection's. *)
Lemma add_of_two_empty_returns_second :
  empty_fields fresh_fields
  ∧ empty_fields zero_length_fields
  ∧ add (collection fresh_fields) (collection zero_length_fields)
    = Ok (collection zero_length_fields)
  ∧ collection zero_length_fields ≠ collection fresh_fields
  ∧ zero_length_fields !! "latitude" ≠ fresh_fields !! "latitude".
Proof.
  split; [by_evaluation|]. split; [by_evaluation|].
  split; [vm_compute; reflexivity|].
  split; vm_compute; discriminate.
Qed.

Lemma add_empty_absorbed_witness :
  add (collection zero_length_fields) (collection granule_full)
  = Ok (collection granule_full)
  ∧ add (collection granule_full) (collection zero_length_fields)
    = Ok (collection granule_full).
Proof.
  destruct (add_empty_absorbed granule_full zero_length_fields) as [Hl Hr].
  - by_evaluation.
  - by_evaluation.
  - split; [exact Hl|]. apply Hr.
    exists "latitude", (arr1 [1; 2]%Q), 1, []. split; reflexivity.
Defined.

(** ** The single-shot reducer *)

Section ListFacts.

Context {A B : Type}.

Lemma fmap_seq_ext (f g : nat → A) s n :
  (∀ i, s ≤ i < s + n → f i = g i) → f <$> seq s n = g <$> seq s n.
Proof.
  intros Hfg. apply list_eq. intros i. rewrite !list_lookup_fmap.
  destruct (decide (i < n)) as [Hi|Hi].
  - rewrite lookup_seq_lt by done. simpl. f_equal. apply Hfg. lia.
  - by rewrite lookup_seq_ge by lia.
Qed.

Lemma take_drop_nth (d : A) (l : list A) s k :
  s + k ≤ length l →
  take k (drop s l) = (λ j, nth (s + j) l d) <$> seq 0 k.
Proof.
  intros Hlen. apply list_eq. intros i. rewrite list_lookup_fmap.
  destruct (decide (i < k)) as [Hi|Hi].
  - rewrite lookup_take_lt, lookup_drop, lookup_seq_lt by done. simpl.
    destruct (lookup_lt_is_Some_2 l (s + i)) as [x Hx]; [lia|].
    rewrite Hx. f_equal. symmetry. by apply nth_lookup_Some.
  - rewrite lookup_take_ge, lookup_seq_ge by lia. done.
Qed.

Lemma concat_singletons (f : B → A) (l : list B) :
  concat ((λ i, [f i]) <$> l) = f <$> l.
Proof. induction l as [|x l IH]; [done|]. rewrite !fmap_cons. simpl. by f_equal. Qed.

Lemma nth_fmap_seq (f : nat → A) (d : A) n i :
  i < n → nth i (f <$> seq 0 n) d = f i.
Proof.
  intros Hi. apply nth_lookup_Some.
  rewrite list_lookup_fmap, lookup_seq_lt by done. done.
Qed.

Lemma zip_with_fmap_seq {C D} (h : C → D → A) (f : nat → C) (g : nat → D) n :
  zip_with h (f <$> seq 0 n) (g <$> seq 0 n) = (λ i, h (f i) (g i)) <$> seq 0 n.
Proof.
  generalize (seq 0 n). intros l. induction l as [|x l IH]; [done|].
  rewrite !fmap_cons. simpl. by f_equal.
Qed.

End ListFacts.

Section Reducer.

Lemma int8_small z : (-128 ≤ z < 128)%Z → int8 z = z.
Proof. intros Hz. unfold int8. rewrite Z.mod_small; lia. Qed.

Lemma count_zeros_spec row :
  Z.of_nat (count_zeros row) = spec_clear_count row
  ∧ count_zeros row ≤ length row.
Proof.
  unfold count_zeros. induction row as [|x row [IH1 IH2]]; simpl; [done|].
  destruct (Qeq_bool x 0); simpl; lia.
Qed.

Lemma clamp_spec x : clamp x = spec_clamp x.
Proof. unfold clamp, spec_clamp, Qltb. by destruct (Qle_bool x 0). Qed.

Lemma reshape_rows_ok a k n :
  k ≠ 0 → size a = k * n → reshape_rows a k = Ok (NdArray [n; k] (flat a)).
Proof.
  intros Hk Hsize. unfold reshape_rows. rewrite Hsize.
  rewrite decide_True.
  - do 3 f_equal. rewrite Nat.mul_comm. by apply Nat.div_mul.
  - split; [done|]. rewrite Nat.mul_comm. apply Nat.Div0.mod_mul.
Qed.

Lemma rows_nth n k l :
  length l = k * n →
  rows (NdArray [n; k] l)
  = (λ i, (λ j, nth (k * i + j) l 0%Q) <$> seq 0 k) <$> seq 0 n.
Proof.
  intros Hlen. unfold rows. simpl. apply fmap_seq_ext. intros i Hi.
  rewrite (take_drop_nth 0%Q) by nia.
  apply fmap_seq_ext. intros j _. f_equal. lia.
Qed.

Lemma index_col_first n c l :
  0 < c → length l = c * n →
  index_col (NdArray [n; c] l) 0
  = Ok (NdArray [n] ((λ i, nth (i * c) l 0%Q) <$> seq 0 n)).
Proof.
  intros Hc Hlen. unfold index_col. simpl. rewrite decide_True by done.
  do 2 f_equal.
  rewrite <- (concat_singletons (λ i, nth (i * c) l 0%Q) (seq 0 n)). f_equal.
  apply fmap_seq_ext. intros i Hi.
  rewrite (take_drop_nth 0%Q) by nia. simpl. do 2 f_equal. lia.
Qed.

(** The cloudy counts of lines 194-196, footprint by footprint. *)
Lemma cloudy_counts n layers :
  length layers = 15 * n →
  (λ c, int8 (15 - c))
    <$> ((λ row, int8 (Z.of_nat (count_zeros row)))
           <$> rows (NdArray [n; 15] layers))
  = spec_cloudy_count layers <$> seq 0 n.
Proof.
  intros Hlen. rewrite rows_nth by done.
  rewrite <- !list_fmap_compose. apply fmap_seq_ext. intros i _.
  unfold compose, spec_cloudy_count, footprint_shots.
  assert ((λ j, nth (15 * i + j) layers 0%Q) <$> seq 0 15
          = (λ j, nth ((15 * i + j) * 1) layers 0%Q) <$> seq 0 15) as ->.
  { apply fmap_seq_ext. intros j _. f_equal. lia. }
  set (row := _ <$> seq 0 15).
  destruct (count_zeros_spec row) as [Hc Hle].
  assert (length row = 15) as Hrow.
  { unfold row. by rewrite length_fmap, length_seq. }
  rewrite <- Hc. rewrite (int8_small (Z.of_nat _)) by lia.
  rewrite int8_small by lia. done.
Qed.

Lemma spec_cloudy_count_range layers i :
  (0 ≤ spec_cloudy_count layers i ≤ 15)%Z.
Proof.
  unfold spec_cloudy_count. set (row := footprint_shots 1 layers i).
  destruct (count_zeros_spec row) as [Hc Hle].
  assert (length row = 15) as Hrow.
  { unfold row, footprint_shots. by rewrite length_fmap, length_seq. }
  lia.
Qed.

Lemma mean_or_sentinel_spec shots c :
  (0 ≤ c)%Z →
  mean_or_sentinel (Qsum (clamp <$> shots)) c = spec_mean c shots.
Proof.
  intros Hc. unfold mean_or_sentinel, spec_mean.
  assert (clamp <$> shots = spec_clamp <$> shots) as ->.
  { apply list_fmap_ext. intros _ x _. apply clamp_spec. }
  destruct (Z.ltb_spec 0 c), (Z.eqb_spec c 0); try done; lia.
Qed.

(** Lines 202-210: the stored mean of every footprint. *)
Lemma single_shot_mean_spec ssd name values layers n :
  ssd !! name = Some values →
  size values = 75 * n →
  single_shot_mean ssd name (spec_cloudy_count layers <$> seq 0 n)
  = Ok (spec_means layers (flat values) n).
Proof.
  intros Hname Hsize. unfold single_shot_mean, getitem. rewrite Hname.
  cbn [bind]. rewrite (reshape_rows_ok values 5 (15 * n)) by (done || lia).
  cbn [bind]. unfold size in Hsize.
  rewrite index_col_first by lia. cbn [bind].
  set (firsts := _ <$> seq 0 (15 * n)).
  assert (length firsts = 15 * n) as Hfirsts.
  { unfold firsts. by rewrite length_fmap, length_seq. }
  rewrite (reshape_rows_ok (NdArray [15 * n] firsts) 15 n) by done.
  cbn [bind]. rewrite rows_nth by done.
  rewrite <- !list_fmap_compose.
  unfold broadcast2. rewrite decide_True by (by rewrite !length_fmap).
  cbn [bind]. rewrite zip_with_fmap_seq, length_fmap, length_seq.
  unfold spec_means. do 2 f_equal.
  apply fmap_seq_ext. intros i Hi. unfold compose. cbn [flat].
  assert ((λ j, nth (15 * i + j) firsts 0%Q) <$> seq 0 15
          = footprint_shots 5 (flat values) i) as ->.
  { unfold footprint_shots. apply fmap_seq_ext. intros j Hj.
    unfold firsts. rewrite nth_fmap_seq by lia. done. }
  apply mean_or_sentinel_spec, spec_cloudy_count_range.
Qed.

End Reducer.

Section ReducerResults.

Variables (retv : DataObject) (m : gmap string value).
Variables (singleshotdata : gmap string ndarray) (n : nat).
Variables (nlf lba ltp lta : ndarray).
Hypothesis retv_dict : all_arrays retv = Dict m.
Hypothesis valid : valid_single_shot singleshotdata n nlf lba ltp lta.

(** The reducer succeeds on a valid single-shot group and leaves these
    five fields on the collection. *)
Lemma rearrange_spec :
  rearrange_calipso_the_single_shot_info retv singleshotdata
  = Ok (collection
          (<["average_cloud_top_single_shots" :=
               VArr (spec_means (flat nlf) (flat lta) n)]>
             (<["average_cloud_top_pressure_single_shots" :=
                  VArr (spec_means (flat nlf) (flat ltp) n)]>
                (<["average_cloud_base_single_shots" :=
                     VArr (spec_means (flat nlf) (flat lba) n)]>
                   (<["single_shot_data" :=
                        VArr (NdArray [n; 15] (astype_int8 <$> flat nlf))]>
                      (<["number_cloudy_single_shots" :=
                           VArr (spec_cloudy (flat nlf) n)]> m)))))).
Proof.
  destruct valid as [Hnlf Hlba Hltp Hlta Snlf Slba Sltp Slta].
  unfold rearrange_calipso_the_single_shot_info, getitem.
  rewrite Hnlf. cbn [bind].
  rewrite (reshape_rows_ok nlf 15 n) by done. cbn [bind shape flat].
  rewrite cloudy_counts by done.
  rewrite !(single_shot_mean_spec _ _ _ _ _ Hlba Slba).
  rewrite !(single_shot_mean_spec _ _ _ _ _ Hltp Sltp).
  rewrite !(single_shot_mean_spec _ _ _ _ _ Hlta Slta).
  unfold setattr. rewrite retv_dict.
  repeat (rewrite decide_False by done; cbn [bind all_arrays]).
  rewrite <- list_fmap_compose, length_fmap, length_seq.
  assert ((λ c, inject_Z (int8 c)) ∘ spec_cloudy_count (flat nlf) <$> seq 0 n
          = (λ i, inject_Z (spec_cloudy_count (flat nlf) i)) <$> seq 0 n)
    as ->; [|done].
  apply fmap_seq_ext. intros i _. unfold compose. f_equal.
  pose proof (spec_cloudy_count_range (flat nlf) i).
  apply int8_small. lia.
Qed.

(** The groups of fifteen of the reshaped layer counts. *)
Lemma footprint_of_layers i :
  i < n → footprint_shots 1 (flat nlf) i = take 15 (drop (15 * i) (flat nlf)).
Proof.
  intros Hi. destruct valid as [_ _ _ _ Snlf _ _ _]. unfold size in Snlf.
  rewrite (take_drop_nth 0%Q) by lia. unfold footprint_shots.
  apply fmap_seq_ext. intros j _. f_equal. lia.
Qed.

Lemma Qsum_nonpositive shots :
  Forall (λ x, (x <= 0)%Q) shots → (Qsum (spec_clamp <$> shots) == 0)%Q.
Proof.
  induction 1 as [|x shots Hx _ IH]; [reflexivity|].
  rewrite fmap_cons. simpl. rewrite IH. unfold spec_clamp.
  apply Qle_bool_iff in Hx. rewrite Hx. reflexivity.
Qed.

End ReducerResults.

(** C3.  On a valid single-shot group of [n] footprints the reducer
    stores, under [number_cloudy_single_shots], one value per group of
    fifteen layer counts: 15 minus the number of zeros of the group; the
    reshaped grouping itself is stored under [single_shot_data].  For the
    group [0,0,0,1,...,1] the stored count is 12. *)
Theorem number_cloudy_single_shots_spec
    (retv : DataObject) (m : gmap string value)
    (singleshotdata : gmap string ndarray) (n : nat)
    (nlf lba ltp lta : ndarray) :
  all_arrays retv = Dict m →
  valid_single_shot singleshotdata n nlf lba ltp lta →
  (∃ m', rearrange_calipso_the_single_shot_info retv singleshotdata
         = Ok (collection m')
         ∧ m' !! "number_cloudy_single_shots"
           = Some (VArr (NdArray [n]
                     ((λ i, inject_Z
                              (15 - spec_clear_count
                                      (take 15 (drop (15 * i) (flat nlf)))))
                        <$> seq 0 n)))
         ∧ m' !! "single_shot_data"
           = Some (VArr (NdArray [n; 15] (astype_int8 <$> flat nlf))))
  ∧ (∃ m', rearrange_calipso_the_single_shot_info retv
             (single_shot_group 1 layers_3_clear values_all_zero)
           = Ok (collection m')
           ∧ m' !! "number_cloudy_single_shots"
             = Some (VArr (NdArray [1] [12%Q]))).
Proof.
  intros Hretv Hvalid. split.
  - eexists. split; [exact (rearrange_spec _ _ _ _ _ _ _ _ Hretv Hvalid)|].
    split; [|by rewrite !lookup_insert_ne, lookup_insert_eq by done].
    rewrite !lookup_insert_ne by done. rewrite lookup_insert_eq.
    unfold spec_cloudy. do 3 f_equal.
    apply fmap_seq_ext. intros i Hi. unfold spec_cloudy_count.
    rewrite (footprint_of_layers _ _ _ _ _ _ Hvalid) by lia. done.
  - eexists. split.
    + apply (rearrange_spec retv m _ 1 (NdArray [15; 1] layers_3_clear)
               (NdArray [15; 5] values_all_zero)
               (NdArray [15; 5] values_all_zero)
               (NdArray [15; 5] values_all_zero) Hretv).
      by constructor.
    + rewrite !lookup_insert_ne by done. rewrite lookup_insert_eq.
      reflexivity.
Qed.

Lemma number_cloudy_single_shots_spec_witness :
  (∃ m', rearrange_calipso_the_single_shot_info CalipsoObject
           (single_shot_group 2 (layers_3_clear ++ layers_all_cloudy)
              (values_all_zero ++ values_all_zero))
         = Ok (collection m')
         ∧ m' !! "number_cloudy_single_shots"
           = Some (VArr (NdArray [2] [12%Q; 15%Q])))
  ∧ (∃ m', rearrange_calipso_the_single_shot_info CalipsoObject
             (single_shot_group 1 layers_3_clear values_all_zero)
           = Ok (collection m')
           ∧ m' !! "number_cloudy_single_shots"
             = Some (VArr (NdArray [1] [12%Q]))).
Proof.
  destruct (number_cloudy_single_shots_spec CalipsoObject _
              (single_shot_group 2 (layers_3_clear ++ layers_all_cloudy)
                 (values_all_zero ++ values_all_zero)) 2
              (NdArray [30; 1] (layers_3_clear ++ layers_all_cloudy))
              (NdArray [30; 5] (values_all_zero ++ values_all_zero))
              (NdArray [30; 5] (values_all_zero ++ values_all_zero))
              (NdArray [30; 5] (values_all_zero ++ values_all_zero))
              eq_refl)
    as [(m' & Hrun & Hcount & _) Hexample].
  - constructor; reflexivity.
  - split; [|exact Hexample]. exists m'. split; [exact Hrun|].
    rewrite Hcount. reflexivity.
Defined.

(** C2.  On a valid single-shot group of [n] footprints, each of the
    three stored means holds, for every footprint, the sum of the fifteen
    first-layer values clamped at zero divided by the footprint's cloudy
    count, and -9 when that count is 0.  A cloudy count of 5 with a
    clamped sum of 50 gives the mean 10. *)
Theorem single_shot_means_spec
    (retv : DataObject) (m : gmap string value)
    (singleshotdata : gmap string ndarray) (n : nat)
    (nlf lba ltp lta : ndarray) :
  all_arrays retv = Dict m →
  valid_single_shot singleshotdata n nlf lba ltp lta →
  (∃ m', rearrange_calipso_the_single_shot_info retv singleshotdata
         = Ok (collection m')
         ∧ m' !! "average_cloud_base_single_shots"
           = Some (VArr (spec_means (flat nlf) (flat lba) n))
         ∧ m' !! "average_cloud_top_pressure_single_shots"
           = Some (VArr (spec_means (flat nlf) (flat ltp) n))
         ∧ m' !! "average_cloud_top_single_shots"
           = Some (VArr (spec_means (flat nlf) (flat lta) n)))
  ∧ (∀ shots, spec_mean 0 shots = (-9 # 1)%Q)
  ∧ (∀ shots, (Qsum (spec_clamp <$> shots) == 50)%Q →
              (spec_mean 5 shots == 10)%Q).
Proof.
  intros Hretv Hvalid. split; [|split].
  - eexists. split; [exact (rearrange_spec _ _ _ _ _ _ _ _ Hretv Hvalid)|].
    split; [|split].
    + by rewrite !lookup_insert_ne, lookup_insert_eq by done.
    + by rewrite !lookup_insert_ne, lookup_insert_eq by done.
    + by rewrite lookup_insert_eq.
  - done.
  - intros shots Hsum. unfold spec_mean. simpl. rewrite Hsum. reflexivity.
Qed.

Lemma single_shot_means_spec_witness :
  ∃ m' x, rearrange_calipso_the_single_shot_info CalipsoObject
            (single_shot_group 1 layers_5_cloudy base_sum_50)
          = Ok (collection m')
          ∧ m' !! "average_cloud_base_single_shots"
            = Some (VArr (NdArray [1] [x]))
          ∧ (x == 10)%Q.
Proof.
  destruct (single_shot_means_spec CalipsoObject _
              (single_shot_group 1 layers_5_cloudy base_sum_50) 1
              (NdArray [15; 1] layers_5_cloudy)
              (NdArray [15; 5] base_sum_50)
              (NdArray [15; 5] base_sum_50)
              (NdArray [15; 5] base_sum_50) eq_refl)
    as [(m' & Hrun & Hbase & _) [_ Hexample]].
  - constructor; reflexivity.
  - exists m', (spec_mean 5 (footprint_shots 5 base_sum_50 0)).
    split; [exact Hrun|]. split; [exact Hbase|].
    apply Hexample. reflexivity.
Defined.

(** C4 fails on the code: with fifteen cloudy shots whose base altitudes
    are all zero, the stored mean is zero, not the sentinel. *)
Lemma mean_base_zero_not_sentinel :
  Forall (λ x, (x <= 0)%Q) values_all_zero
  ∧ ∃ m' x, rearrange_calipso_the_single_shot_info CalipsoObject
              (single_shot_group 1 layers_all_cloudy values_all_zero)
            = Ok (collection m')
            ∧ m' !! "average_cloud_base_single_shots"
              = Some (VArr (NdArray [1] [x]))
            ∧ (x == 0)%Q
            ∧ ¬ (x == -9 # 1)%Q.
Proof.
  split.
  - apply Forall_replicate. discriminate.
  - eexists _, (0 # 15)%Q. split.
    { apply (rearrange_spec CalipsoObject _ _ 1
               (NdArray [15; 1] layers_all_cloudy)
               (NdArray [15; 5] values_all_zero)
               (NdArray [15; 5] values_all_zero)
               (NdArray [15; 5] values_all_zero) eq_refl).
      constructor; reflexivity. }
    split.
    { rewrite !lookup_insert_ne, lookup_insert_eq by done.
      vm_compute. reflexivity. }
    split; [reflexivity|]. discriminate.
Qed.

(** C4, as the code has it.  For a footprint whose fifteen first-layer
    base altitudes are all at most 0, the stored mean base is exactly -9
    when the footprint has no cloudy shot, and is 0 when it has some. *)
Theorem mean_base_of_nonpositive_footprint
    (retv : DataObject) (m : gmap string value)
    (singleshotdata : gmap string ndarray) (n : nat)
    (nlf lba ltp lta : ndarray) (i : nat) :
  all_arrays retv = Dict m →
  valid_single_shot singleshotdata n nlf lba ltp lta →
  i < n →
  Forall (λ x, (x <= 0)%Q) (footprint_shots 5 (flat lba) i) →
  ∃ m' means,
    rearrange_calipso_the_single_shot_info retv singleshotdata
    = Ok (collection m')
    ∧ m' !! "average_cloud_base_single_shots" = Some (VArr means)
    ∧ shape means = [n]
    ∧ (spec_cloudy_count (flat nlf) i = 0%Z →
       nth i (flat means) 0%Q = (-9 # 1)%Q)
    ∧ (spec_cloudy_count (flat nlf) i ≠ 0%Z →
       (nth i (flat means) 0 == 0)%Q).
Proof.
  intros Hretv Hvalid Hi Hshots.
  eexists _, _. split; [exact (rearrange_spec _ _ _ _ _ _ _ _ Hretv Hvalid)|].
  split; [by rewrite !lookup_insert_ne, lookup_insert_eq by done|].
  split; [done|]. cbn [flat spec_means].
  rewrite nth_fmap_seq by done. unfold spec_mean. split.
  - intros ->. done.
  - intros Hc. apply Z.eqb_neq in Hc. rewrite Hc.
    rewrite (Qsum_nonpositive _ Hshots). reflexivity.
Qed.

Lemma mean_base_of_nonpositive_footprint_witness :
  (∃ m' means,
     rearrange_calipso_the_single_shot_info CalipsoObject
       (single_shot_group 1 layers_all_clear values_all_zero)
     = Ok (collection m')
     ∧ m' !! "average_cloud_base_single_shots" = Some (VArr means)
     ∧ nth 0 (flat means) 0%Q = (-9 # 1)%Q)
  ∧ (∃ m' means,
       rearrange_calipso_the_single_shot_info CalipsoObject
         (single_shot_group 1 layers_3_clear values_all_zero)
       = Ok (collection m')
       ∧ m' !! "average_cloud_base_single_shots" = Some (VArr means)
       ∧ (nth 0 (flat means) 0 == 0)%Q).
Proof.
  split.
  - destruct (mean_base_of_nonpositive_footprint CalipsoObject _
                (single_shot_group 1 layers_all_clear values_all_zero) 1
                (NdArray [15; 1] layers_all_clear)
                (NdArray [15; 5] values_all_zero)
                (NdArray [15; 5] values_all_zero)
                (NdArray [15; 5] values_all_zero) 0 eq_refl)
      as (m' & means & Hrun & Hbase & _ & Hclear & _).
    + constructor; reflexivity.
    + lia.
    + vm_compute. repeat constructor; discriminate.
    + exists m', means. split; [exact Hrun|]. split; [exact Hbase|].
      apply Hclear. reflexivity.
  - destruct (mean_base_of_nonpositive_footprint CalipsoObject _
                (single_shot_group 1 layers_3_clear values_all_zero) 1
                (NdArray [15; 1] layers_3_clear)
                (NdArray [15; 5] values_all_zero)
                (NdArray [15; 5] values_all_zero)
                (NdArray [15; 5] values_all_zero) 0 eq_refl)
      as (m' & means & Hrun & Hbase & _ & _ & Hcloudy).
    + constructor; reflexivity.
    + lia.
    + vm_compute. repeat constructor; discriminate.
    + exists m', means. split; [exact Hrun|]. split; [exact Hbase|].
      apply Hcloudy. vm_compute. discriminate.
Defined.

(** ** The loader *)

Section Loader.

Implicit Types (f : h5file) (m : gmap string value) (w : world).

Lemma h5_lookup_member f name item :
  NoDup (h5_keys f) → (name, item) ∈ f → h5_lookup f name = Some item.
Proof.
  unfold h5_lookup, h5_keys.
  induction f as [|[k it] f IH]; intros Hnd Hin.
  - by apply elem_of_nil in Hin.
  - rewrite fmap_cons in Hnd. apply NoDup_cons in Hnd as [Hk Hnd]. simpl.
    apply elem_of_cons in Hin as [Heq|Hin].
    + injection Heq as -> ->. by rewrite bool_decide_eq_true_2.
    + rewrite bool_decide_eq_false_2; [by apply IH|].
      simpl. intros ->. apply Hk. apply list_elem_of_fmap.
      by exists (name, item).
Qed.

Lemma canonical_name_unfold dataset :
  canonical_name dataset = default (lower dataset) (atrain_match_names !! dataset).
Proof. unfold canonical_name. by destruct (atrain_match_names !! dataset). Qed.

(** The loop succeeds on members that can be read, keeps the handles
    and folds [load_step] over the member names. *)
Lemma load_loop_spec f keys : ∀ m w,
  (∀ k, k ∈ keys → eligible k → ∃ a, h5_read f k = Ok a) →
  (∀ k, k ∈ keys → eligible k → canonical_name k ≠ "all_arrays") →
  ∃ w', load_loop f keys (collection m) w
        = (w', Ok (collection (foldl (load_step f) m keys)))
        ∧ open_files w' = open_files w.
Proof.
  induction keys as [|k keys IH]; intros m w Hread Hname.
  - by exists w.
  - assert (∀ k', k' ∈ keys → eligible k' → ∃ a, h5_read f k' = Ok a) as Hread'.
    { intros k' Hk'. apply Hread. by right. }
    assert (∀ k', k' ∈ keys → eligible k' → canonical_name k' ≠ "all_arrays")
      as Hname'.
    { intros k' Hk'. apply Hname. by right. }
    cbn [load_loop foldl]. unfold load_step at 2, eligible.
    destruct (decide (k ∈ ["Single_Shot_Detection"])) as [H1|H1].
    { rewrite decide_False by tauto. by apply IH. }
    destruct (decide (k ∈ excluded_groups)) as [H2|H2].
    { rewrite decide_False by tauto. unfold bindM, print.
      destruct (IH m {| open_files := open_files w;
                        stdout := stdout w ++ ["Not reading " +:+ k] |})
        as (w' & -> & Hw'); eauto. }
    destruct (decide (k ∈ scip_these_larger_variables_until_needed)) as [H3|H3].
    { rewrite decide_False by tauto. unfold bindM, print.
      destruct (IH m {| open_files := open_files w;
                        stdout := stdout w ++ ["Not reading " +:+ k] |})
        as (w' & -> & Hw'); eauto. }
    rewrite decide_True by done.
    destruct (Hread k) as [a Ha]; [by left|done|].
    rewrite Ha. unfold bindM, lift, setattr.
    rewrite decide_False by (apply Hname; [by left|done]).
    cbn [all_arrays collection]. by apply IH.
Qed.

Lemma load_step_other f m k name :
  canonical_name k ≠ name → load_step f m k !! name = m !! name.
Proof.
  intros Hne. unfold load_step. case_decide; [|done].
  destruct (h5_read f k); [|done]. by rewrite lookup_insert_ne.
Qed.

(** After the loop an eligible member is a field of the collection. *)
Lemma loaded_present f keys m k a :
  k ∈ keys → eligible k → h5_read f k = Ok a →
  ∃ a', foldl (load_step f) m keys !! canonical_name k = Some (VArr a').
Proof.
  induction keys as [|x keys IH] using rev_ind; intros Hk He Ha.
  - by apply elem_of_nil in Hk.
  - rewrite foldl_app. cbn [foldl].
    destruct (decide (canonical_name x = canonical_name k)) as [Heq|Hne].
    + destruct (decide (eligible x)) as [Hx|Hx].
      * unfold load_step. rewrite decide_True by done.
        destruct (h5_read f x) as [ax|] eqn:Hax.
        -- rewrite Heq, lookup_insert_eq. eauto.
        -- apply elem_of_app in Hk as [Hk|Hk]; [by apply IH|].
           apply list_elem_of_singleton in Hk as ->. congruence.
      * unfold load_step. rewrite decide_False by done.
        apply elem_of_app in Hk as [Hk|Hk]; [by apply IH|].
        apply list_elem_of_singleton in Hk as ->. done.
    + rewrite load_step_other by done.
      apply elem_of_app in Hk as [Hk|Hk]; [by apply IH|].
      apply list_elem_of_singleton in Hk as ->. done.
Qed.

(** It holds the member's own array when no other eligible member has
    the same canonical name. *)
Lemma loaded_exact f keys m k a :
  k ∈ keys → eligible k → h5_read f k = Ok a →
  (∀ k', k' ∈ keys → eligible k' →
         canonical_name k' = canonical_name k → k' = k) →
  foldl (load_step f) m keys !! canonical_name k = Some (VArr a).
Proof.
  induction keys as [|x keys IH] using rev_ind; intros Hk He Ha Hinj.
  - by apply elem_of_nil in Hk.
  - rewrite foldl_app. cbn [foldl].
    assert (∀ k', k' ∈ keys → eligible k' →
                  canonical_name k' = canonical_name k → k' = k) as Hinj'.
    { intros k' Hk'. apply Hinj. apply elem_of_app. by left. }
    destruct (decide (x = k)) as [->|Hxk].
    + unfold load_step. rewrite decide_True by done. rewrite Ha.
      by rewrite lookup_insert_eq.
    + apply elem_of_app in Hk as [Hk|Hk].
      2:{ apply list_elem_of_singleton in Hk. congruence. }
      unfold load_step. case_decide as Hx; [|by apply IH].
      destruct (h5_read f x); [|by apply IH].
      rewrite lookup_insert_ne; [by apply IH|].
      intros Heq. apply Hxk. apply Hinj; [|done|done].
      apply elem_of_app. right. by apply list_elem_of_singleton.
Qed.

Lemma valid_single_shot_dict members n nlf lba ltp lta :
  valid_single_shot members n nlf lba ltp lta →
  valid_single_shot
    (<["ssNumber_Layers_Found" := nlf]>
       (<["ssLayer_Base_Altitude" := lba]>
          (<["ssLayer_Top_Pressure" := ltp]>
             (<["ssLayer_Top_Altitude" := lta]> ∅)))) n nlf lba ltp lta.
Proof.
  intros [_ _ _ _ S1 S2 S3 S4]. constructor; done.
Qed.

(** The single-shot step succeeds on a valid file and keeps the handles. *)
Lemma read_single_shot_spec f m w :
  valid_file f →
  ∃ w' m', read_single_shot f (collection m) w = (w', Ok (collection m'))
           ∧ open_files w' = open_files w.
Proof.
  intros Hf. unfold read_single_shot.
  case_decide as Hss; [|by exists w, m].
  destruct (vf_single_shot f Hf Hss)
    as (members & n & nlf & lba & ltp & lta & Hgroup & Hvalid).
  pose proof (valid_single_shot_dict _ _ _ _ _ _ Hvalid) as Hdict.
  destruct Hvalid as [H1 H2 H3 H4 _ _ _ _].
  unfold bindM, print, lift, h5_member_value, getitem.
  rewrite Hgroup, H1, H2, H3, H4.
  erewrite (rearrange_spec (collection m) m); [|done|exact Hdict].
  eauto.
Qed.

(** The handle is released on success and only on success. *)
Lemma load_loop_handles f keys : ∀ retv w w' r,
  load_loop f keys retv w = (w', r) → open_files w' = open_files w.
Proof.
  induction keys as [|k keys IH]; intros retv w w' r Hrun.
  - injection Hrun as <- _. done.
  - cbn [load_loop] in Hrun. unfold bindM, print, lift in Hrun.
    repeat case_decide.
    + by eapply IH.
    + apply IH in Hrun. done.
    + apply IH in Hrun. done.
    + destruct (h5_read f k); [|by injection Hrun as <- _].
      destruct (setattr retv (canonical_name k) (VArr a));
        [|by injection Hrun as <- _].
      by eapply IH.
Qed.

Lemma read_single_shot_handles f retv w w' r :
  read_single_shot f retv w = (w', r) → open_files w' = open_files w.
Proof.
  unfold read_single_shot, bindM, print, lift, retM. intros Hrun.
  case_decide; [|by injection Hrun as <- _].
  repeat (match type of Hrun with
          | context [h5_member_value ?f ?g ?x] =>
              destruct (h5_member_value f g x)
          end; [|by injection Hrun as <- _]).
  by injection Hrun as <- _.
Qed.

Lemma read_calipso_h5_handles fs filename f retv w w' r :
  fs filename = Some f →
  read_calipso_h5 fs (Some filename) retv w = (w', r) →
  open_files w'
  = if is_ok r then open_files w else filename :: open_files w.
Proof.
  intros Hfs. unfold read_calipso_h5, bindM, h5_open, h5_close, retM.
  rewrite Hfs.
  destruct (read_single_shot f retv _) as [w1 [r1|e1]] eqn:H1;
    apply read_single_shot_handles in H1.
  2:{ intros Hrun. injection Hrun as <- <-. done. }
  destruct (load_loop f (h5_keys f) r1 w1) as [w2 [r2|e2]] eqn:H2;
    apply load_loop_handles in H2.
  2:{ intros Hrun. injection Hrun as <- <-. simpl in *. congruence. }
  intros Hrun. injection Hrun as <- <-. simpl in *. rewrite H2, H1. simpl.
  by rewrite decide_True.
Qed.

End Loader.

(** ** Canonical names *)

Section CanonicalNames.

Lemma lower_ascii_spec c :
  case_pair c (lower_ascii c) ∧ is_upper (lower_ascii c) = false.
Proof.
  destruct c as [[] [] [] [] [] [] [] []];
    (split; [first [left; reflexivity | right; split; reflexivity]
            |reflexivity]).
Qed.

Lemma lower_is_lowercase s : lowercase_of s (lower s).
Proof.
  unfold lowercase_of, no_uppercase.
  induction s as [|c s [IH1 IH2]]; [by split; constructor|].
  destruct (lower_ascii_spec c) as [Hpair Hlow].
  cbn [lower list_ascii_of_string]. split; by constructor.
Qed.

Lemma case_pair_lower c d :
  case_pair c d → is_upper d = false → d = lower_ascii c.
Proof.
  unfold case_pair, is_upper, lower_ascii. cbv zeta.
  intros [<-|[Hup Hd]] Hlow.
  - by rewrite Hlow.
  - rewrite Hup, <- Hd. symmetry. apply ascii_nat_embedding.
Qed.

Lemma lowercase_of_unique s : ∀ t, lowercase_of s t → t = lower s.
Proof.
  unfold lowercase_of, no_uppercase.
  induction s as [|c s IH]; intros [|d t] [Hpairs Hno];
    cbn [list_ascii_of_string lower] in *;
    try (by inversion Hpairs).
  apply Forall2_cons in Hpairs as [Hcd Hpairs].
  apply Forall_cons in Hno as [Hd Hno].
  f_equal; [by apply case_pair_lower|by apply IH].
Qed.

(** The rename map and the lower case determine the canonical name. *)
Lemma names_field_canonical dataset name :
  names_field dataset name ↔ name = canonical_name dataset.
Proof.
  unfold names_field, canonical_name.
  destruct (atrain_match_names !! dataset) as [renamed|]; [done|].
  split.
  - apply lowercase_of_unique.
  - intros ->. apply lower_is_lowercase.
Qed.

End CanonicalNames.

(** C9.  On a valid file the loader (with the [value] attribute of the
    datasets of h5py 2, which the code reads) returns a collection in
    which every eligible top-level dataset (not the single-shot group, not
    an excluded group, not in the skip-list) is a field under its canonical
    name: the renamed name when the rename map has the dataset, and
    otherwise the dataset name in lower case, that is the name with the
    same characters up to case and without upper-case letter.  The field
    holds that dataset's array when no other eligible dataset has the same
    canonical name. *)
Theorem read_calipso_h5_loads_eligible_datasets
    (fs : filesystem) (filename : string) (f : h5file)
    (retv : DataObject) (m : gmap string value) (w : world) :
  fs filename = Some f →
  valid_file f →
  all_arrays retv = Dict m →
  ∃ w' m',
    read_calipso_h5 fs (Some filename) retv w = (w', Ok (collection m'))
    ∧ ∀ dataset a,
        (dataset, Dataset a) ∈ f → eligible dataset →
        (∃ name, names_field dataset name)
        ∧ ∀ name,
            names_field dataset name →
            (∃ a', m' !! name = Some (VArr a'))
            ∧ ((∀ other, other ∈ h5_keys f → eligible other →
                         names_field other name → other = dataset) →
               m' !! name = Some (VArr a)).
Proof.
  intros Hfs Hf Hretv. destruct retv as [d]. simpl in Hretv. subst d.
  unfold read_calipso_h5, bindM, h5_open, h5_close, retM. rewrite Hfs.
  destruct (read_single_shot_spec f m
              {| open_files := filename :: open_files w; stdout := stdout w |}
              Hf) as (w1 & m1 & Hss & _).
  fold (collection m). rewrite Hss.
  assert (∀ k, k ∈ h5_keys f → eligible k → ∃ a, h5_read f k = Ok a) as Hread.
  { intros k Hk He. apply list_elem_of_fmap in Hk as [[k' item] [-> Hin]].
    simpl in *. destruct (vf_datasets f Hf _ _ Hin He) as [a ->]. exists a.
    unfold h5_read. by rewrite (h5_lookup_member f k' (Dataset a) (vf_names f Hf)). }
  destruct (load_loop_spec f (h5_keys f) m1 w1 Hread (vf_fields f Hf))
    as (w2 & Hloop & _).
  rewrite Hloop. eexists _, _. split; [reflexivity|].
  intros dataset a Hin He. split.
  { exists (canonical_name dataset). by apply names_field_canonical. }
  intros name Hname. apply names_field_canonical in Hname as ->.
  assert (dataset ∈ h5_keys f) as Hk.
  { apply list_elem_of_fmap. by exists (dataset, Dataset a). }
  assert (h5_read f dataset = Ok a) as Ha.
  { unfold h5_read. by rewrite (h5_lookup_member f dataset (Dataset a) (vf_names f Hf)). }
  split.
  - by eapply loaded_present.
  - intros Hinj. apply loaded_exact; [done|done|done|].
    intros k' Hk' He' Heq. apply Hinj; [done|done|].
    apply names_field_canonical. by rewrite Heq.
Qed.

Lemma granule_file_valid : valid_file granule_file.
Proof.
  constructor.
  - by_evaluation.
  - intros dataset item Hin He.
    repeat (apply elem_of_cons in Hin as [Heq|Hin];
            [injection Heq as -> ->;
             first [by eexists | exfalso; revert He; by_evaluation]|]).
    by apply elem_of_nil in Hin.
  - intros dataset Hin _. unfold h5_keys in Hin. simpl in Hin.
    repeat (apply elem_of_cons in Hin as [->|Hin];
            [vm_compute; discriminate|]).
    by apply elem_of_nil in Hin.
  - intros _. eexists _, 2, _, _, _, _. split; [reflexivity|].
    constructor; reflexivity.
Qed.

Lemma read_calipso_h5_loads_eligible_datasets_witness :
  ∃ w' m',
    read_calipso_h5 disk (Some "granule.h5") CalipsoObject idle
    = (w', Ok (collection m'))
    ∧ m' !! "latitude"
      = Some (VArr (NdArray [2; 3] [10; 11; 12; 20; 21; 22]%Q))
    ∧ m' !! "profile_time_tai"
      = Some (VArr (NdArray [2; 3] [100; 101; 102; 200; 201; 202]%Q)).
Proof.
  destruct (read_calipso_h5_loads_eligible_datasets disk "granule.h5"
              granule_file CalipsoObject _ idle eq_refl granule_file_valid
              eq_refl) as (w' & m' & Hrun & Hfields).
  exists w', m'. split; [exact Hrun|]. split.
  - destruct (Hfields "Latitude"
                (NdArray [2; 3] [10; 11; 12; 20; 21; 22]%Q)) as [_ Hname].
    + left.
    + by_evaluation.
    + destruct (Hname "latitude") as [_ Hexact]; [by_evaluation|].
      apply Hexact. intros other Hin He Hn.
      unfold h5_keys in Hin. simpl in Hin.
      repeat (apply elem_of_cons in Hin as [->|Hin];
              [first [reflexivity
                     |exfalso; revert Hn; by_evaluation
                     |exfalso; revert He; by_evaluation]|]).
      by apply elem_of_nil in Hin.
  - destruct (Hfields "Profile_Time"
                (NdArray [2; 3] [100; 101; 102; 200; 201; 202]%Q))
      as [_ Hname].
    + do 2 right. left.
    + by_evaluation.
    + destruct (Hname "profile_time_tai") as [_ Hexact]; [by_evaluation|].
      apply Hexact. intros other Hin He Hn.
      unfold h5_keys in Hin. simpl in Hin.
      repeat (apply elem_of_cons in Hin as [->|Hin];
              [first [reflexivity
                     |exfalso; revert Hn; by_evaluation
                     |exfalso; revert He; by_evaluation]|]).
      by apply elem_of_nil in Hin.
Defined.

(** C6, failing path.  A file with a top-level group that is neither
    excluded nor skipped: the read of that group raises [TypeError] after
    the first dataset was loaded, and the load ends with the handle still
    open. *)
Theorem read_calipso_h5_leaves_handle_open :
  read_calipso_h5 disk (Some "unknown_group.h5") CalipsoObject idle
  = ({| open_files := ["unknown_group.h5"]; stdout := [] |}, Err TypeError)
  ∧ field_of (read_calipso_h5 disk (Some "granule.h5") CalipsoObject idle)
      "latitude"
    = Some (VArr (NdArray [2; 3] [10; 11; 12; 20; 21; 22]%Q))
  ∧ open_files (read_calipso_h5 disk (Some "granule.h5") CalipsoObject idle).1
    = [].
Proof. split; [|split]; vm_compute; reflexivity. Qed.

(** C1, failing environment.  The offset that [read_calipso] adds is
    [dsec], which is 725846400 plus the difference between the zone's
    standard offset on 1993-01-01 and [time.timezone]; the constant
    725846400 is [dsec2], which is only compared with it.  In a zone such
    as Europe/Istanbul the loader adds 725850000. *)
Theorem epoch_offset_depends_on_zone :
  dsec2 = 725846400%Z
  ∧ (∀ env, dsec env
            = (725846400 + std_offset_west env 725846400 - timezone env)%Z)
  ∧ dsec utc_zone = 725846400%Z
  ∧ dsec istanbul_zone = 725850000%Z
  ∧ field_of (read_calipso istanbul_zone disk (Some "granule.h5") idle)
      "sec_1970"
    = Some (VArr (NdArray [2] [725850101; 725850201]%Q))
  ∧ stdout (read_calipso istanbul_zone disk (Some "granule.h5") idle).1
    = ["Reading file %s granule.h5"; "Reading single shot information";
       "Not reading Spacecraft_Position"; "Not reading metadata"; "WARNING"].
Proof.
  split; [reflexivity|]. split; [intros env; reflexivity|].
  repeat split; vm_compute; reflexivity.
Qed.

(** ** Attribute access and the fresh collection *)

Section Attributes.

Implicit Types (self : DataObject) (m : gmap string value) (v : value).




(** X2.  Assigning under the name [all_arrays] replaces the dictionary of
    fields: afterwards no field can be read or assigned any more. *)
Theorem all_arrays_assignment_loses_fields self v (name : string) v' :
  name ≠ "all_arrays" →
  ∃ self', setattr self "all_arrays" v = Ok self'
           ∧ is_ok (getattr self' name) = false
           ∧ is_ok (setattr self' name v') = false.
Proof.
  intros Hname. eexists. split; [done|].
  unfold getattr, setattr. rewrite decide_False by done. cbn [all_arrays].
  by destruct v.
Qed.


End Attributes.


Lemma all_arrays_assignment_loses_fields_witness :
  ∃ self', setattr CalipsoObject "all_arrays" (VArr (arr1 [1; 2]%Q)) = Ok self'
           ∧ is_ok (getattr self' "latitude") = false
           ∧ is_ok (setattr self' "latitude" VNone) = false.
Proof.
  apply (all_arrays_assignment_loses_fields CalipsoObject
           (VArr (arr1 [1; 2]%Q)) "latitude" VNone).
  discriminate.
Defined.


(** ** Errors and shapes of the concatenation *)

Section ConcatenationEdges.

Implicit Types (self other : gmap string value) (v : value).
Implicit Types (key : string) (a b : ndarray).

Lemma is_empty_loop_unsized vals acc v :
  v ∈ vals → ¬ sized v → is_empty_loop vals acc = Err TypeError.
Proof.
  intros Hin Hv. revert acc.
  induction vals as [|x vals IH]; intros acc; [by apply elem_of_nil in Hin|].
  cbn [is_empty_loop]. destruct x as [|ax]; cbn [field_nonempty bind].
  - apply IH. apply elem_of_cons in Hin as [->|Hin]; [|done].
    exfalso. by apply Hv.
  - unfold np_len. destruct (shape ax) as [|n rest] eqn:Hshape; [done|].
    cbn [bind]. apply IH. apply elem_of_cons in Hin as [->|Hin]; [|done].
    exfalso. apply Hv. simpl. by rewrite Hshape.
Qed.

Lemma values_of_fields (m : gmap string value) key v :
  m !! key = Some v → v ∈ (map_to_list m).*2.
Proof.
  intros Hk. apply list_elem_of_fmap. exists (key, v). split; [done|].
  by apply elem_of_map_to_list.
Qed.

(** X4.  A zero-dimensional array in either operand makes [+] raise
    [TypeError]: the emptiness test takes [len] of every non-null field. *)
Theorem add_unsized_field_raises_TypeError self other key a :
  self !! key = Some (VArr a) ∨ other !! key = Some (VArr a) →
  shape a = [] →
  add (collection self) (collection other) = Err TypeError.
Proof.
  intros Hkey Hshape.
  assert (¬ sized (VArr a)) as Hunsized.
  { simpl. rewrite Hshape. intros Hne. by apply Hne. }
  unfold add. cbn [collection all_arrays dict_of bind].
  destruct Hkey as [Hself|Hother].
  - rewrite (is_empty_loop_unsized _ _ _ (values_of_fields _ _ _ Hself) Hunsized).
    done.
  - destruct (is_empty_loop (map_to_list self).*2 true) as [flag|e] eqn:Hs;
      cbn [bind].
    + rewrite (is_empty_loop_unsized _ _ _ (values_of_fields _ _ _ Hother)
                 Hunsized). done.
    + apply is_empty_loop_error in Hs. by subst e.
Qed.

(** X5.  For two non-empty collections, a field of the first operand
    that is null, 1-D, 2-D or a segment field and that the second operand
    does not have makes [+] raise [KeyError]. *)
Theorem add_missing_key_raises_KeyError self other key v :
  sized_fields self → sized_fields other →
  nonempty_fields self → nonempty_fields other →
  self !! key = Some v → other !! key = None →
  match v with
  | VNone => True
  | VArr a => ndim a = 1 ∨ key ∈ segment_keys ∨ ndim a = 2
  end →
  add (collection self) (collection other) = Err KeyError.
Proof.
  intros Hs Ho Hns Hno Hself Hother Hv.
  assert (merged_value key v other = Err KeyError) as Hmerged.
  { unfold merged_value, getitem. rewrite Hother. destruct v as [|a]; [done|].
    by rewrite decide_True. }
  unfold add. cbn [collection all_arrays dict_of bind].
  rewrite (is_empty_no _ Hs Hns). cbn [bind].
  rewrite (is_empty_no _ Ho Hno). cbn [bind].
  destruct (add_loop (map_to_list self).*1 self other) as [r|e] eqn:Hloop.
  - apply add_loop_lookup in Hloop as [Hin _].
    + destruct (Hin key v) as [Hm _]; [|done|congruence].
      apply keys_of_fields. eauto.
    + apply NoDup_fst_map_to_list.
    + intros k. by rewrite keys_of_fields.
  - apply add_loop_error in Hloop. by subst e.
Qed.

Lemma rows_app (m n k : nat) (la lb : list Q) :
  length la = m * k →
  rows (NdArray [m + n; k] (la ++ lb))
  = rows (NdArray [m; k] la) ++ rows (NdArray [n; k] lb).
Proof.
  intros Hla. unfold rows. cbn [shape flat].
  rewrite seq_app, fmap_app. f_equal.
  - apply fmap_seq_ext. intros i Hi.
    rewrite drop_app_le by nia. rewrite take_app_le; [done|].
    rewrite length_drop. nia.
  - replace (seq (0 + m) n) with (Nat.add m <$> seq 0 n)
      by (rewrite fmap_add_seq; f_equal; lia).
    rewrite <- list_fmap_compose. apply fmap_seq_ext. intros i _. unfold compose.
    rewrite drop_app_ge by nia. do 2 f_equal. nia.
Qed.

(** X6.  For two non-empty collections over one schema, a field that
    holds 2-D arrays with the same number of columns holds, after [+],
    the rows of the first operand followed by the rows of the second. *)
Theorem add_stacks_2d_rows self other key a b (m n k : nat) :
  sized_fields self → sized_fields other →
  nonempty_fields self → nonempty_fields other →
  dom self ⊆ dom other →
  self !! key = Some (VArr a) → other !! key = Some (VArr b) →
  shape a = [m; k] → shape b = [n; k] → wf_array a →
  ∃ r (ab : ndarray),
    add (collection self) (collection other) = Ok (collection r)
    ∧ r !! key = Some (VArr ab)
    ∧ shape ab = [m + n; k]
    ∧ rows ab = rows a ++ rows b.
Proof.
  intros Hs Ho Hns Hno Hdom Ha Hb Hsa Hsb Hwa.
  destruct (add_nonempty self other) as (r & Hr & Hfields); try done.
  destruct (Hfields key _ Ha) as (v & Hv & Hrv).
  unfold merged_value in Hv. unfold ndim in Hv. rewrite Hsa in Hv.
  rewrite decide_True in Hv by (by right; right).
  unfold getitem in Hv. rewrite Hb in Hv. cbn [bind] in Hv.
  unfold np_concatenate in Hv. rewrite Hsa, Hsb in Hv.
  rewrite decide_True in Hv by done. injection Hv as <-.
  eexists r, _. split; [done|]. split; [done|]. split; [done|].
  unfold wf_array in Hwa. rewrite Hsa in Hwa. cbn in Hwa.
  rewrite rows_app by lia.
  destruct a as [sa fa], b as [sb fb]. cbn in *. subst sa sb. done.
Qed.

(** The loop on two non-empty collections, field by field. *)
Lemma add_nonempty_fields self other :
  sized_fields self → sized_fields other →
  nonempty_fields self → nonempty_fields other →
  dom self ⊆ dom other →
  ∃ r, add (collection self) (collection other) = Ok (collection r)
       ∧ (∀ key sv, self !! key = Some sv →
            ∃ v, merged_value key sv other = Ok v ∧ r !! key = Some v)
       ∧ (∀ key, self !! key = None → r !! key = None).
Proof.
  intros Hs Ho Hns Hno Hdom.
  assert (NoDup (map_to_list self).*1) as Hnd by apply NoDup_fst_map_to_list.
  assert (∀ k, k ∈ (map_to_list self).*1 → is_Some (self !! k)) as Hkeys.
  { intros k. by rewrite keys_of_fields. }
  destruct (add_loop_total ((map_to_list self).*1) self other) as [r Hr];
    [done|done| |].
  { intros k Hk. apply keys_of_fields in Hk.
    apply elem_of_dom, Hdom. by apply elem_of_dom. }
  exists r. split.
  - unfold add. cbn [collection all_arrays dict_of bind].
    rewrite (is_empty_no _ Hs Hns). cbn [bind].
    rewrite (is_empty_no _ Ho Hno). cbn [bind]. by rewrite Hr.
  - apply add_loop_lookup in Hr as [Hin Hout]; [|done|done]. split.
    + intros key sv Hsv. destruct (Hin key sv) as [Hm [v Hv]]; [|done|].
      { apply keys_of_fields. eauto. }
      exists v. by rewrite Hv in Hm.
    + intros key Hk. rewrite Hout, Hk; [done|].
      rewrite keys_of_fields, Hk. by intros [? ?].
Qed.

(** X7.  The sum of two non-empty collections has exactly the fields of
    the first operand: a field that only the second operand has is not in
    the result. *)
Theorem add_keeps_schema_of_first self other :
  sized_fields self → sized_fields other →
  nonempty_fields self → nonempty_fields other →
  dom self ⊆ dom other →
  ∃ r, add (collection self) (collection other) = Ok (collection r)
       ∧ dom r = dom self.
Proof.
  intros Hs Ho Hns Hno Hdom.
  destruct (add_nonempty_fields self other) as (r & Hr & Hin & Hout);
    try done.
  exists r. split; [done|].
  apply set_eq. intros k. rewrite !elem_of_dom.
  destruct (self !! k) as [sv|] eqn:Hk.
  - destruct (Hin k sv Hk) as (v & _ & ->). split; eauto.
  - rewrite (Hout k Hk). done.
Qed.

End ConcatenationEdges.

Lemma add_unsized_field_raises_TypeError_witness :
  add (collection granule_scalar) (collection granule_full) = Err TypeError.
Proof.
  apply (add_unsized_field_raises_TypeError granule_scalar granule_full
           "latitude" (NdArray [] [7]%Q)).
  - left. reflexivity.
  - reflexivity.
Defined.

Lemma add_missing_key_raises_KeyError_witness :
  add (collection granule_full) (collection granule_latitude_only)
  = Err KeyError.
Proof.
  apply (add_missing_key_raises_KeyError granule_full granule_latitude_only
           "longitude" (VArr (arr1 [5]%Q))).
  - by_evaluation.
  - by_evaluation.
  - exists "latitude", (arr1 [1; 2]%Q), 1, []. split; reflexivity.
  - exists "latitude", (arr1 [4]%Q), 0, []. split; reflexivity.
  - reflexivity.
  - reflexivity.
  - left. reflexivity.
Defined.

Lemma add_stacks_2d_rows_witness :
  ∃ r ab,
    add (collection granule_2d) (collection granule_2d_two_rows)
    = Ok (collection r)
    ∧ r !! "latitude" = Some (VArr ab)
    ∧ shape ab = [1 + 2; 2]
    ∧ rows ab = [[3; 4]; [5; 6]; [7; 8]]%Q.
Proof.
  apply (add_stacks_2d_rows granule_2d granule_2d_two_rows "latitude"
           (NdArray [1; 2] [3; 4]%Q) (NdArray [2; 2] [5; 6; 7; 8]%Q) 1 2 2).
  - by_evaluation.
  - by_evaluation.
  - exists "longitude", (arr1 [3]%Q), 0, []. split; reflexivity.
  - exists "longitude", (arr1 [3]%Q), 0, []. split; reflexivity.
  - by_evaluation.
  - reflexivity.
  - reflexivity.
  - reflexivity.
  - reflexivity.
  - reflexivity.
Defined.

Lemma add_keeps_schema_of_first_witness :
  ∃ r, add (collection granule_latitude_only) (collection granule_full)
       = Ok (collection r)
       ∧ dom r = dom granule_latitude_only.
Proof.
  apply (add_keeps_schema_of_first granule_latitude_only granule_full).
  - by_evaluation.
  - by_evaluation.
  - exists "latitude", (arr1 [4]%Q), 0, []. split; reflexivity.
  - exists "latitude", (arr1 [1; 2]%Q), 1, []. split; reflexivity.
  - by_evaluation.
Defined.

(** ** Errors and invariants of the single-shot reducer *)

Section ReducerEdges.

Lemma bind_ok {A B} (r : result A) (f : A → result B) (b : B) :
  bind r f = Ok b → ∃ a, r = Ok a ∧ f a = Ok b.
Proof. destruct r as [a|e]; [eauto|done]. Qed.

Lemma reshape_rows_inv a k r :
  reshape_rows a k = Ok r →
  size a = k * (size a `div` k) ∧ r = NdArray [size a `div` k; k] (flat a).
Proof.
  unfold reshape_rows. case_decide as Hk; [|done]. intros [= <-].
  split; [|done]. destruct Hk as [Hk Hmod].
  by apply Nat.Div0.div_exact.
Qed.

(** A mean is computed only from an array that is present and whose
    length is a multiple of 75. *)
Lemma single_shot_mean_inv ssd name cloudy r :
  single_shot_mean ssd name cloudy = Ok r →
  ∃ values n, ssd !! name = Some values ∧ size values = 75 * n.
Proof.
  unfold single_shot_mean, getitem. intros Hrun.
  destruct (ssd !! name) as [values|]; [|done]. cbn [bind] in Hrun.
  apply bind_ok in Hrun as (r5 & H5 & Hrun).
  apply reshape_rows_inv in H5 as [Hsize ->].
  unfold size in Hsize.
  rewrite index_col_first in Hrun by (lia || done). cbn [bind] in Hrun.
  apply bind_ok in Hrun as (r15 & H15 & _).
  apply reshape_rows_inv in H15 as [Hq _].
  unfold size in Hq. cbn [flat] in Hq.
  rewrite length_fmap, length_seq in Hq.
  exists values, ((length (flat values) `div` 5) `div` 15).
  split; [done|]. unfold size. lia.
Qed.

Lemma broadcast2_mismatch {A B C} (f : A → B → C) xs ys :
  length xs ≠ length ys → length xs ≠ 1 → length ys ≠ 1 →
  broadcast2 f xs ys = Err ValueError.
Proof.
  intros Hne Hx Hy. unfold broadcast2. rewrite decide_False by done.
  destruct xs as [|x [|x' xs]]; [|done|];
    destruct ys as [|y [|y' ys]]; done.
Qed.

(** X8.  The reducer returns a collection only when all four arrays are
    present, the layer counts come in a multiple of 15 and each of the
    three other arrays in a multiple of 75 values. *)
Theorem rearrange_succeeds_only_on_whole_footprints
    (retv r : DataObject) (singleshotdata : gmap string ndarray) :
  rearrange_calipso_the_single_shot_info retv singleshotdata = Ok r →
  ∃ nlf lba ltp lta n nb np na,
    singleshotdata !! "ssNumber_Layers_Found" = Some nlf
    ∧ singleshotdata !! "ssLayer_Base_Altitude" = Some lba
    ∧ singleshotdata !! "ssLayer_Top_Pressure" = Some ltp
    ∧ singleshotdata !! "ssLayer_Top_Altitude" = Some lta
    ∧ size nlf = 15 * n
    ∧ size lba = 75 * nb ∧ size ltp = 75 * np ∧ size lta = 75 * na.
Proof.
  unfold rearrange_calipso_the_single_shot_info, getitem. intros Hrun.
  destruct (singleshotdata !! "ssNumber_Layers_Found") as [nlf|]; [|done].
  cbn [bind] in Hrun.
  apply bind_ok in Hrun as (r15 & H15 & Hrun).
  apply reshape_rows_inv in H15 as [Hn _].
  apply bind_ok in Hrun as (retv1 & _ & Hrun).
  apply bind_ok in Hrun as (retv2 & _ & Hrun).
  apply bind_ok in Hrun as (base & Hbase & Hrun).
  apply single_shot_mean_inv in Hbase as (lba & nb & Hlba & Sb).
  apply bind_ok in Hrun as (retv3 & _ & Hrun).
  apply bind_ok in Hrun as (topp & Htopp & Hrun).
  apply single_shot_mean_inv in Htopp as (ltp & np & Hltp & Sp).
  apply bind_ok in Hrun as (retv4 & _ & Hrun).
  apply bind_ok in Hrun as (topa & Htopa & Hrun).
  apply single_shot_mean_inv in Htopa as (lta & na & Hlta & Sa).
  by exists nlf, lba, ltp, lta, (size nlf `div` 15), nb, np, na.
Qed.

(** X9.  When the layer counts describe [n] footprints and the base
    altitudes [nb] footprints, with [n] and [nb] different and neither
    equal to one, the reducer raises [ValueError]: the row sums and the
    cloudy counts cannot be broadcast together. *)
Theorem rearrange_rejects_footprint_mismatch
    (retv : DataObject) (m : gmap string value)
    (singleshotdata : gmap string ndarray) (nlf lba : ndarray) (n nb : nat) :
  all_arrays retv = Dict m →
  singleshotdata !! "ssNumber_Layers_Found" = Some nlf →
  singleshotdata !! "ssLayer_Base_Altitude" = Some lba →
  size nlf = 15 * n → size lba = 75 * nb →
  n ≠ nb → n ≠ 1 → nb ≠ 1 →
  rearrange_calipso_the_single_shot_info retv singleshotdata = Err ValueError.
Proof.
  intros Hretv Hnlf Hlba Sn Sb Hne Hn1 Hb1.
  unfold rearrange_calipso_the_single_shot_info, getitem.
  rewrite Hnlf. cbn [bind].
  rewrite (reshape_rows_ok nlf 15 n) by done. cbn [bind shape flat].
  rewrite cloudy_counts by done.
  unfold setattr. rewrite Hretv.
  repeat (rewrite decide_False by done; cbn [bind all_arrays]).
  unfold single_shot_mean at 1, getitem. rewrite Hlba. cbn [bind].
  rewrite (reshape_rows_ok lba 5 (15 * nb)) by (done || lia). cbn [bind].
  unfold size in Sb. rewrite index_col_first by lia. cbn [bind].
  set (firsts := _ <$> seq 0 (15 * nb)).
  assert (length firsts = 15 * nb) as Hfirsts.
  { unfold firsts. by rewrite length_fmap, length_seq. }
  rewrite (reshape_rows_ok (NdArray [15 * nb] firsts) 15 nb) by done.
  cbn [bind]. rewrite rows_nth by done.
  rewrite broadcast2_mismatch; [done| | |];
    rewrite !length_fmap, !length_seq; done.
Qed.

Lemma spec_clamp_nonneg x : (0 <= spec_clamp x)%Q.
Proof.
  unfold spec_clamp. destruct (Qle_bool x 0) eqn:Hx; [apply Qle_refl|].
  apply Qlt_le_weak, Qnot_le_lt. intros Hle.
  apply Qle_bool_iff in Hle. congruence.
Qed.

Lemma Qsum_clamp_nonneg shots : (0 <= Qsum (spec_clamp <$> shots))%Q.
Proof.
  induction shots as [|x shots IH]; [apply Qle_refl|].
  rewrite fmap_cons. cbn [Qsum foldr].
  change 0%Q with (0 + 0)%Q at 1.
  apply Qplus_le_compat; [apply spec_clamp_nonneg|exact IH].
Qed.

Lemma spec_mean_range c shots :
  (0 ≤ c)%Z →
  (c = 0%Z ∧ spec_mean c shots = (-9 # 1)%Q)
  ∨ ((0 < c)%Z ∧ (0 <= spec_mean c shots)%Q).
Proof.
  intros Hc. unfold spec_mean. destruct (Z.eqb_spec c 0) as [->|Hne].
  - by left.
  - right. split; [lia|]. unfold Qdiv.
    apply Qmult_le_0_compat; [apply Qsum_clamp_nonneg|].
    apply Qinv_le_0_compat. change 0%Q with (inject_Z 0).
    rewrite <- Zle_Qle. lia.
Qed.

Section Outputs.

Variables (retv : DataObject) (m : gmap string value).
Variables (singleshotdata : gmap string ndarray) (n : nat).
Variables (nlf lba ltp lta : ndarray).
Hypothesis retv_dict : all_arrays retv = Dict m.
Hypothesis valid : valid_single_shot singleshotdata n nlf lba ltp lta.

(** The three means, by name. *)
Lemma rearrange_means name :
  name ∈ reducer_means →
  ∃ m' values,
    rearrange_calipso_the_single_shot_info retv singleshotdata
    = Ok (collection m')
    ∧ m' !! "number_cloudy_single_shots" = Some (VArr (spec_cloudy (flat nlf) n))
    ∧ m' !! name = Some (VArr (spec_means (flat nlf) values n)).
Proof.
  intros Hname.
  pose proof (rearrange_spec _ _ _ _ _ _ _ _ retv_dict valid) as Hrun.
  match type of Hrun with _ = Ok (collection ?fields) => exists fields end.
  unfold reducer_means in Hname.
  apply elem_of_cons in Hname as [->|Hname];
    [exists (flat lba)
    |apply elem_of_cons in Hname as [->|Hname];
     [exists (flat ltp)
     |apply list_elem_of_singleton in Hname as ->; exists (flat lta)]];
    (split; [exact Hrun|]);
    split; by rewrite ?lookup_insert_ne, lookup_insert_eq by done.
Qed.

End Outputs.

(** X10.  In the reducer's output every cloudy count lies between 0 and
    15, and every mean is either the sentinel -9, exactly when the
    footprint's cloudy count is 0, or a non-negative number. *)
Theorem reducer_counts_and_means_in_range
    (retv : DataObject) (m : gmap string value)
    (singleshotdata : gmap string ndarray) (n : nat)
    (nlf lba ltp lta : ndarray) (name : string) (i : nat) :
  all_arrays retv = Dict m →
  valid_single_shot singleshotdata n nlf lba ltp lta →
  name ∈ reducer_means →
  i < n →
  ∃ m' counts means (c : Z),
    rearrange_calipso_the_single_shot_info retv singleshotdata
    = Ok (collection m')
    ∧ m' !! "number_cloudy_single_shots" = Some (VArr counts)
    ∧ m' !! name = Some (VArr means)
    ∧ nth i (flat counts) 0%Q = inject_Z c
    ∧ (0 ≤ c ≤ 15)%Z
    ∧ ((c = 0%Z ∧ nth i (flat means) 0%Q = (-9 # 1)%Q)
       ∨ ((0 < c)%Z ∧ (0 <= nth i (flat means) 0)%Q)).
Proof.
  intros Hretv Hvalid Hname Hi.
  destruct (rearrange_means retv m singleshotdata n nlf lba ltp lta
              Hretv Hvalid name Hname) as (m' & values & Hrun & Hc & Hm).
  exists m', (spec_cloudy (flat nlf) n), (spec_means (flat nlf) values n),
    (spec_cloudy_count (flat nlf) i).
  split; [done|]. split; [done|]. split; [done|].
  cbn [flat spec_cloudy spec_means]. rewrite !nth_fmap_seq by done.
  split; [done|].
  pose proof (spec_cloudy_count_range (flat nlf) i) as Hrange.
  split; [done|]. apply spec_mean_range. lia.
Qed.

(** X11.  The reducer assigns its five fields and nothing else: every
    other field of the collection is as before, the four per-footprint
    arrays have one entry per footprint, and [single_shot_data] has
    fifteen columns. *)
Theorem reducer_assigns_only_its_fields
    (retv : DataObject) (m : gmap string value)
    (singleshotdata : gmap string ndarray) (n : nat)
    (nlf lba ltp lta : ndarray) :
  all_arrays retv = Dict m →
  valid_single_shot singleshotdata n nlf lba ltp lta →
  ∃ m',
    rearrange_calipso_the_single_shot_info retv singleshotdata
    = Ok (collection m')
    ∧ (∀ name, name ∉ reducer_fields → m' !! name = m !! name)
    ∧ (∀ name, name ∈ "number_cloudy_single_shots" :: reducer_means →
         ∃ a, m' !! name = Some (VArr a)
              ∧ shape a = [n] ∧ length (flat a) = n)
    ∧ (∃ a, m' !! "single_shot_data" = Some (VArr a)
            ∧ shape a = [n; 15] ∧ length (flat a) = 15 * n).
Proof.
  intros Hretv Hvalid. eexists.
  split; [exact (rearrange_spec _ _ _ _ _ _ _ _ Hretv Hvalid)|].
  split; [|split].
  - intros name Hname. unfold reducer_fields, reducer_means in Hname.
    rewrite !not_elem_of_cons in Hname.
    destruct Hname as (H1 & H2 & H3 & H4 & H5 & _).
    by rewrite !lookup_insert_ne by done.
  - intros name Hname. unfold reducer_means in Hname.
    repeat (apply elem_of_cons in Hname as [->|Hname];
            [eexists; split;
             [by rewrite ?lookup_insert_ne, lookup_insert_eq by done|];
             split; [done|]; cbn; by rewrite length_fmap, length_seq|]).
    by apply elem_of_nil in Hname.
  - eexists. split; [by rewrite ?lookup_insert_ne, lookup_insert_eq by done|].
    split; [done|]. cbn. rewrite length_fmap.
    destruct Hvalid as [_ _ _ _ Snlf _ _ _]. exact Snlf.
Qed.

(** X12.  Only the first of the five values of every single shot enters
    the means: two single-shot groups that agree on the layer counts and
    on every fifth value of the three other arrays give the same result. *)
Theorem reducer_reads_first_layer_only
    (retv : DataObject) (m : gmap string value)
    (ssd1 ssd2 : gmap string ndarray) (n : nat)
    (nlf lba1 ltp1 lta1 lba2 ltp2 lta2 : ndarray) :
  all_arrays retv = Dict m →
  valid_single_shot ssd1 n nlf lba1 ltp1 lta1 →
  valid_single_shot ssd2 n nlf lba2 ltp2 lta2 →
  (∀ k, k < 15 * n →
     nth (5 * k) (flat lba1) 0%Q = nth (5 * k) (flat lba2) 0%Q
     ∧ nth (5 * k) (flat ltp1) 0%Q = nth (5 * k) (flat ltp2) 0%Q
     ∧ nth (5 * k) (flat lta1) 0%Q = nth (5 * k) (flat lta2) 0%Q) →
  rearrange_calipso_the_single_shot_info retv ssd1
  = rearrange_calipso_the_single_shot_info retv ssd2
  ∧ is_ok (rearrange_calipso_the_single_shot_info retv ssd1) = true.
Proof.
  intros Hretv H1 H2 Hsame.
  rewrite (rearrange_spec _ _ _ _ _ _ _ _ Hretv H1).
  rewrite (rearrange_spec _ _ _ _ _ _ _ _ Hretv H2).
  split; [|done].
  assert (∀ v1 v2,
    (∀ k, k < 15 * n → nth (5 * k) v1 0%Q = nth (5 * k) v2 0%Q) →
    spec_means (flat nlf) v1 n = spec_means (flat nlf) v2 n) as Hmeans.
  { intros v1 v2 Hv. unfold spec_means. f_equal.
    apply fmap_seq_ext. intros i Hi. f_equal.
    unfold footprint_shots. apply fmap_seq_ext. intros j Hj.
    rewrite (Nat.mul_comm _ 5). apply Hv. lia. }
  rewrite (Hmeans (flat lba1) (flat lba2)) by (intros k Hk; apply Hsame, Hk).
  rewrite (Hmeans (flat ltp1) (flat ltp2)) by (intros k Hk; apply Hsame, Hk).
  rewrite (Hmeans (flat lta1) (flat lta2)) by (intros k Hk; apply Hsame, Hk).
  done.
Qed.

End ReducerEdges.

Lemma rearrange_succeeds_only_on_whole_footprints_witness :
  ∃ nlf lba ltp lta n nb np na,
    single_shot_group 1 layers_3_clear values_all_zero
      !! "ssNumber_Layers_Found" = Some nlf
    ∧ single_shot_group 1 layers_3_clear values_all_zero
        !! "ssLayer_Base_Altitude" = Some lba
    ∧ single_shot_group 1 layers_3_clear values_all_zero
        !! "ssLayer_Top_Pressure" = Some ltp
    ∧ single_shot_group 1 layers_3_clear values_all_zero
        !! "ssLayer_Top_Altitude" = Some lta
    ∧ size nlf = 15 * n
    ∧ size lba = 75 * nb ∧ size ltp = 75 * np ∧ size lta = 75 * na.
Proof.
  apply (rearrange_succeeds_only_on_whole_footprints CalipsoObject _ _
           (rearrange_spec CalipsoObject _
              (single_shot_group 1 layers_3_clear values_all_zero) 1
              (NdArray [15; 1] layers_3_clear)
              (NdArray [15; 5] values_all_zero)
              (NdArray [15; 5] values_all_zero)
              (NdArray [15; 5] values_all_zero) eq_refl
              ltac:(constructor; reflexivity))).
Defined.

Lemma rearrange_rejects_footprint_mismatch_witness :
  rearrange_calipso_the_single_shot_info CalipsoObject mismatched_group
  = Err ValueError.
Proof.
  apply (rearrange_rejects_footprint_mismatch CalipsoObject _ mismatched_group
           (NdArray [45; 1] layers_three_footprints)
           (NdArray [30; 5] values_two_footprints) 3 2 eq_refl);
    (reflexivity || lia).
Defined.

Lemma reducer_counts_and_means_in_range_witness :
  ∃ m' counts means (c : Z),
    rearrange_calipso_the_single_shot_info CalipsoObject
      (single_shot_group 1 layers_3_clear values_all_zero)
    = Ok (collection m')
    ∧ m' !! "number_cloudy_single_shots" = Some (VArr counts)
    ∧ m' !! "average_cloud_top_single_shots" = Some (VArr means)
    ∧ nth 0 (flat counts) 0%Q = inject_Z c
    ∧ (0 ≤ c ≤ 15)%Z
    ∧ ((c = 0%Z ∧ nth 0 (flat means) 0%Q = (-9 # 1)%Q)
       ∨ ((0 < c)%Z ∧ (0 <= nth 0 (flat means) 0)%Q)).
Proof.
  apply (reducer_counts_and_means_in_range CalipsoObject _
           (single_shot_group 1 layers_3_clear values_all_zero) 1
           (NdArray [15; 1] layers_3_clear)
           (NdArray [15; 5] values_all_zero)
           (NdArray [15; 5] values_all_zero)
           (NdArray [15; 5] values_all_zero)
           "average_cloud_top_single_shots" 0 eq_refl).
  - constructor; reflexivity.
  - by_evaluation.
  - lia.
Defined.

Lemma reducer_assigns_only_its_fields_witness :
  ∃ m',
    rearrange_calipso_the_single_shot_info CalipsoObject
      (single_shot_group 1 layers_3_clear values_all_zero)
    = Ok (collection m')
    ∧ m' !! "latitude" = Some VNone
    ∧ (∃ a, m' !! "single_shot_data" = Some (VArr a)
            ∧ shape a = [1; 15] ∧ length (flat a) = 15 * 1).
Proof.
  destruct (reducer_assigns_only_its_fields CalipsoObject _
              (single_shot_group 1 layers_3_clear values_all_zero) 1
              (NdArray [15; 1] layers_3_clear)
              (NdArray [15; 5] values_all_zero)
              (NdArray [15; 5] values_all_zero)
              (NdArray [15; 5] values_all_zero) eq_refl)
    as (m' & Hrun & Hframe & _ & Hdata).
  - constructor; reflexivity.
  - exists m'. split; [exact Hrun|]. split; [|exact Hdata].
    rewrite Hframe; [vm_compute; reflexivity|by_evaluation].
Defined.

Lemma reducer_reads_first_layer_only_witness :
  rearrange_calipso_the_single_shot_info CalipsoObject
    (single_shot_group 1 layers_5_cloudy base_sum_50)
  = rearrange_calipso_the_single_shot_info CalipsoObject
      (single_shot_group 1 layers_5_cloudy base_sum_50_other_layers)
  ∧ is_ok (rearrange_calipso_the_single_shot_info CalipsoObject
             (single_shot_group 1 layers_5_cloudy base_sum_50)) = true.
Proof.
  apply (reducer_reads_first_layer_only CalipsoObject _
           (single_shot_group 1 layers_5_cloudy base_sum_50)
           (single_shot_group 1 layers_5_cloudy base_sum_50_other_layers) 1
           (NdArray [15; 1] layers_5_cloudy)
           (NdArray [15; 5] base_sum_50) (NdArray [15; 5] base_sum_50)
           (NdArray [15; 5] base_sum_50)
           (NdArray [15; 5] base_sum_50_other_layers)
           (NdArray [15; 5] base_sum_50_other_layers)
           (NdArray [15; 5] base_sum_50_other_layers) eq_refl).
  - constructor; reflexivity.
  - constructor; reflexivity.
  - intros k Hk.
    do 15 (destruct k as [|k]; [repeat split; reflexivity|]). lia.
Defined.

(** ** What the loader writes, prints and holds *)

Section LoaderEdges.

Implicit Types (f : h5file) (m : gmap string value) (w : world).

Lemma loaded_untouched f keys m (name : string) :
  (∀ k, k ∈ keys → eligible k → canonical_name k ≠ name) →
  foldl (load_step f) m keys !! name = m !! name.
Proof.
  revert m. induction keys as [|k keys IH]; intros m Hname; [done|].
  cbn [foldl]. rewrite IH.
  - unfold load_step. case_decide as Hk; [|done].
    destruct (h5_read f k); [|done].
    rewrite lookup_insert_ne; [done|]. apply Hname; [by left|done].
  - intros k' Hk'. apply Hname. by right.
Qed.

(** The loop prints one line per skipped member, in order. *)
Lemma load_loop_stdout f keys : ∀ m w,
  (∀ k, k ∈ keys → eligible k → ∃ a, h5_read f k = Ok a) →
  (∀ k, k ∈ keys → eligible k → canonical_name k ≠ "all_arrays") →
  stdout (load_loop f keys (collection m) w).1 = stdout w ++ notes keys.
Proof.
  induction keys as [|k keys IH]; intros m w Hread Hname.
  - cbn. by rewrite app_nil_r.
  - assert (∀ k', k' ∈ keys → eligible k' → ∃ a, h5_read f k' = Ok a) as Hread'.
    { intros k' Hk'. apply Hread. by right. }
    assert (∀ k', k' ∈ keys → eligible k' → canonical_name k' ≠ "all_arrays")
      as Hname'.
    { intros k' Hk'. apply Hname. by right. }
    cbn [load_loop]. unfold notes. rewrite filter_cons. unfold skipped at 1.
    destruct (decide (k ∈ ["Single_Shot_Detection"])) as [H1|H1].
    { case_decide as Hs; [exfalso; tauto|]. by apply IH. }
    destruct (decide (k ∈ excluded_groups)) as [H2|H2].
    { case_decide as Hs; [|exfalso; tauto]. unfold bindM, print.
      rewrite IH by done. cbn [stdout]. rewrite fmap_cons.
      by rewrite <- app_assoc. }
    destruct (decide (k ∈ scip_these_larger_variables_until_needed)) as [H3|H3].
    { case_decide as Hs; [|exfalso; tauto]. unfold bindM, print.
      rewrite IH by done. cbn [stdout]. rewrite fmap_cons.
      by rewrite <- app_assoc. }
    case_decide as Hs; [exfalso; tauto|].
    destruct (Hread k) as [a Ha]; [by left|done|].
    rewrite Ha. unfold bindM, lift, setattr.
    rewrite decide_False by (apply Hname; [by left|done]).
    cbn [all_arrays collection]. by apply IH.
Qed.

(** The single-shot step on a valid file: what it prints and which
    fields it leaves alone. *)
Lemma read_single_shot_full f m w :
  valid_file f →
  ∃ w' m', read_single_shot f (collection m) w = (w', Ok (collection m'))
           ∧ open_files w' = open_files w
           ∧ stdout w' = stdout w ++ single_shot_note f
           ∧ ∀ name, name ∉ reducer_fields → m' !! name = m !! name.
Proof.
  intros Hf. unfold read_single_shot, single_shot_note.
  case_decide as Hss.
  2:{ exists w, m. by rewrite app_nil_r. }
  destruct (vf_single_shot f Hf Hss)
    as (members & n & nlf & lba & ltp & lta & Hgroup & Hvalid).
  pose proof (valid_single_shot_dict _ _ _ _ _ _ Hvalid) as Hdict.
  destruct Hvalid as [H1 H2 H3 H4 _ _ _ _].
  unfold bindM, print, lift, h5_member_value, getitem.
  rewrite Hgroup, H1, H2, H3, H4.
  erewrite (rearrange_spec (collection m) m); [|done|exact Hdict].
  eexists _, _. split; [done|]. split; [done|]. split; [done|].
  intros name Hname. unfold reducer_fields, reducer_means in Hname.
  rewrite !not_elem_of_cons in Hname.
  destruct Hname as (N1 & N2 & N3 & N4 & N5 & _).
  by rewrite !lookup_insert_ne by done.
Qed.

Lemma valid_file_reads f :
  valid_file f →
  ∀ k, k ∈ h5_keys f → eligible k → ∃ a, h5_read f k = Ok a.
Proof.
  intros Hf k Hk He. apply list_elem_of_fmap in Hk as [[k' item] [-> Hin]].
  simpl in *. destruct (vf_datasets f Hf _ _ Hin He) as [a ->]. exists a.
  unfold h5_read.
  by rewrite (h5_lookup_member f k' (Dataset a) (vf_names f Hf)).
Qed.

(** The whole load of a valid file. *)
Lemma read_calipso_h5_full fs (filename : string) f m w :
  fs filename = Some f → valid_file f →
  ∃ w' m1,
    read_calipso_h5 fs (Some filename) (collection m) w
    = (w', Ok (collection (foldl (load_step f) m1 (h5_keys f))))
    ∧ open_files w' = open_files w
    ∧ stdout w' = stdout w ++ single_shot_note f ++ notes (h5_keys f)
    ∧ ∀ name, name ∉ reducer_fields → m1 !! name = m !! name.
Proof.
  intros Hfs Hf.
  unfold read_calipso_h5, bindM, h5_open, h5_close, retM. rewrite Hfs.
  destruct (read_single_shot_full f m
              {| open_files := filename :: open_files w; stdout := stdout w |}
              Hf) as (w1 & m1 & Hss & Ho1 & Hs1 & Hframe).
  rewrite Hss.
  destruct (load_loop_spec f (h5_keys f) m1 w1 (valid_file_reads f Hf)
              (vf_fields f Hf)) as (w2 & Hloop & Ho2).
  pose proof (load_loop_stdout f (h5_keys f) m1 w1 (valid_file_reads f Hf)
                (vf_fields f Hf)) as Hs2.
  rewrite Hloop in Hs2 |- *. cbn [fst] in Hs2.
  eexists _, m1. split; [done|]. cbn [open_files stdout].
  split; [|split; [|done]].
  - rewrite Ho2, Ho1. cbn. by rewrite decide_True.
  - rewrite Hs2, Hs1. cbn. by rewrite <- app_assoc.
Qed.

(** X13.  On a valid file the loader assigns the canonical names of the
    eligible datasets and the reducer's five fields, and nothing else:
    any other field of the collection is as before.  In particular a
    dataset of the skip-list or of an excluded group is not loaded. *)
Theorem loader_assigns_only_loaded_names
    (fs : filesystem) (filename : string) (f : h5file)
    (retv : DataObject) (m : gmap string value) (w : world) (name : string) :
  fs filename = Some f →
  valid_file f →
  all_arrays retv = Dict m →
  name ∉ reducer_fields →
  (∀ dataset, dataset ∈ h5_keys f → eligible dataset →
              canonical_name dataset ≠ name) →
  ∃ w' m',
    read_calipso_h5 fs (Some filename) retv w = (w', Ok (collection m'))
    ∧ m' !! name = m !! name.
Proof.
  intros Hfs Hf Hretv Hname Hother.
  destruct retv as [d]. simpl in Hretv. subst d.
  destruct (read_calipso_h5_full fs filename f m w Hfs Hf)
    as (w' & m1 & Hrun & _ & _ & Hframe).
  eexists _, _. split; [exact Hrun|].
  rewrite loaded_untouched by done. by apply Hframe.
Qed.

(** X14.  On a valid file the loader prints, after the line announcing
    the single-shot group when there is one, exactly one line
    [Not reading <name>] for every member of an excluded group or of the
    skip-list, in the order of the file, and nothing for the datasets it
    loads. *)
Theorem loader_reports_skipped_members
    (fs : filesystem) (filename : string) (f : h5file)
    (retv : DataObject) (m : gmap string value) (w : world) :
  fs filename = Some f →
  valid_file f →
  all_arrays retv = Dict m →
  ∃ w' m',
    read_calipso_h5 fs (Some filename) retv w = (w', Ok (collection m'))
    ∧ stdout w' = stdout w ++ single_shot_note f ++ notes (h5_keys f).
Proof.
  intros Hfs Hf Hretv. destruct retv as [d]. simpl in Hretv. subst d.
  destruct (read_calipso_h5_full fs filename f m w Hfs Hf)
    as (w' & m1 & Hrun & _ & Hout & _).
  by eexists _, _.
Qed.

(** X15.  A load that returns a collection leaves the open handles as
    they were: the handle it opened is closed again. *)
Theorem loader_releases_handle_on_success
    (fs : filesystem) (filename : string) (f : h5file)
    (retv r : DataObject) (w w' : world) :
  fs filename = Some f →
  read_calipso_h5 fs (Some filename) retv w = (w', Ok r) →
  open_files w' = open_files w.
Proof.
  intros Hfs Hrun.
  by rewrite (read_calipso_h5_handles fs filename f retv w w' (Ok r) Hfs Hrun).
Qed.

Lemma load_loop_fails f keys (k : string) :
  k ∈ keys → eligible k → is_ok (h5_read f k) = false →
  ∀ retv w, is_ok (load_loop f keys retv w).2 = false.
Proof.
  intros Hk He Hread.
  induction keys as [|x keys IH]; intros retv w; [by apply elem_of_nil in Hk|].
  cbn [load_loop]. unfold bindM, print, lift.
  destruct (decide (x = k)) as [->|Hne].
  - destruct He as (E1 & E2 & E3). rewrite !decide_False by done.
    by destruct (h5_read f k).
  - assert (k ∈ keys) as Hk'.
    { apply elem_of_cons in Hk as [->|Hk]; done. }
    repeat case_decide; try by apply IH.
    destruct (h5_read f x); [|done].
    destruct (setattr retv (canonical_name x) (VArr a)); [|done].
    by apply IH.
Qed.

(** X16.  A top-level group that is neither the single-shot group, nor
    excluded, nor in the skip-list aborts the load: whatever else the file
    holds, no collection is returned. *)
Theorem loader_aborts_on_unreadable_member
    (fs : filesystem) (filename : string) (f : h5file)
    (retv : DataObject) (w : world) (k : string) (members : gmap string ndarray) :
  fs filename = Some f →
  NoDup (h5_keys f) →
  (k, Group members) ∈ f →
  eligible k →
  is_ok (read_calipso_h5 fs (Some filename) retv w).2 = false.
Proof.
  intros Hfs Hnd Hin He.
  unfold read_calipso_h5, bindM, h5_open. rewrite Hfs.
  destruct (read_single_shot f retv _) as [w1 [r1|e1]]; [|done].
  assert (is_ok (h5_read f k) = false) as Hread.
  { unfold h5_read. by rewrite (h5_lookup_member f k (Group members) Hnd Hin). }
  pose proof (load_loop_fails f (h5_keys f) k) as Hloop.
  specialize (Hloop ltac:(apply list_elem_of_fmap; by exists (k, Group members))
                He Hread r1 w1).
  destruct (load_loop f (h5_keys f) r1 w1) as [w2 [r2|e2]]; done.
Qed.

(** X17.  A canonical field name has no upper-case ASCII letter, for
    renamed datasets too. *)
Theorem canonical_name_is_lowercase (dataset : string) :
  no_uppercase (canonical_name dataset).
Proof.
  unfold canonical_name, atrain_match_names.
  destruct (decide ("Snow_Ice_Surface_Type" = dataset)) as [<-|H1];
    [by_evaluation|].
  rewrite lookup_insert_ne by done.
  destruct (decide ("Profile_Time" = dataset)) as [<-|H2]; [by_evaluation|].
  rewrite lookup_insert_ne by done. rewrite lookup_empty.
  apply lower_is_lowercase.
Qed.

End LoaderEdges.

Lemma loader_assigns_only_loaded_names_witness :
  ∃ w' m',
    read_calipso_h5 disk (Some "granule.h5") CalipsoObject idle
    = (w', Ok (collection m'))
    ∧ m' !! "spacecraft_position" = None.
Proof.
  destruct (loader_assigns_only_loaded_names disk "granule.h5" granule_file
              CalipsoObject _ idle "spacecraft_position" eq_refl
              granule_file_valid eq_refl) as (w' & m' & Hrun & Hsame).
  - by_evaluation.
  - intros dataset Hin He. unfold h5_keys in Hin. simpl in Hin.
    repeat (apply elem_of_cons in Hin as [->|Hin];
            [first [vm_compute; discriminate
                   |exfalso; revert He; by_evaluation]|]).
    by apply elem_of_nil in Hin.
  - exists w', m'. split; [exact Hrun|]. rewrite Hsame. reflexivity.
Defined.

Lemma loader_reports_skipped_members_witness :
  ∃ w' m',
    read_calipso_h5 disk (Some "granule.h5") CalipsoObject idle
    = (w', Ok (collection m'))
    ∧ stdout w'
      = ["Reading single shot information";
         "Not reading Spacecraft_Position"; "Not reading metadata"].
Proof.
  destruct (loader_reports_skipped_members disk "granule.h5" granule_file
              CalipsoObject _ idle eq_refl granule_file_valid eq_refl)
    as (w' & m' & Hrun & Hout).
  exists w', m'. split; [exact Hrun|]. rewrite Hout. vm_compute. reflexivity.
Defined.

Lemma loader_releases_handle_on_success_witness :
  ∃ w' r,
    read_calipso_h5 disk (Some "granule.h5") CalipsoObject idle = (w', Ok r)
    ∧ open_files w' = [].
Proof.
  destruct (read_calipso_h5_full disk "granule.h5" granule_file
              (list_to_map ((λ k, (k, VNone)) <$> calipso_fields)) idle eq_refl
              granule_file_valid) as (w' & m1 & Hrun & _).
  eexists w', _. split; [exact Hrun|].
  exact (loader_releases_handle_on_success disk "granule.h5" granule_file
           CalipsoObject _ idle w' eq_refl Hrun).
Defined.

Lemma loader_aborts_on_unreadable_member_witness :
  is_ok (read_calipso_h5 disk (Some "unknown_group.h5") CalipsoObject idle).2
  = false.
Proof.
  apply (loader_aborts_on_unreadable_member disk "unknown_group.h5"
           granule_with_unknown_group CalipsoObject idle
           "Lidar_Data_Altitudes" ∅ eq_refl).
  - by_evaluation.
  - right. left.
  - by_evaluation.
Defined.

(** ** The post-processing of [read_calipso] *)

Section Adopt.

Implicit Types (m : gmap string value) (w : world) (env : tzenv).

Lemma index_col_2d n c j l :
  j < c → length l = c * n →
  index_col (NdArray [n; c] l) j
  = Ok (NdArray [n] ((λ i, nth (i * c + j) l 0%Q) <$> seq 0 n)).
Proof.
  intros Hc Hlen. unfold index_col. simpl. rewrite decide_True by done.
  do 2 f_equal.
  rewrite <- (concat_singletons (λ i, nth (i * c + j) l 0%Q) (seq 0 n)).
  f_equal. apply fmap_seq_ext. intros i Hi.
  rewrite (take_drop_nth 0%Q) by nia. simpl. do 2 f_equal. lia.
Qed.

Lemma index_col_lacks a :
  lacks_column_1 (VArr a) → index_col a 1 = Err IndexError.
Proof.
  unfold lacks_column_1, index_col.
  destruct (shape a) as [|n [|c rest]]; [done|done|].
  intros Hc. rewrite decide_False; [done|lia].
Qed.

Lemma select_column_1_fields m (name : string) :
  name ≠ "all_arrays" →
  select_column_1 (collection m) name
  = match m !! name with
    | None => Err AttributeError
    | Some VNone => Err TypeError
    | Some (VArr a) =>
        c <- index_col a 1;; Ok (collection (<[name := VArr c]> m))
    end.
Proof.
  intros Hname. unfold select_column_1, getattr. cbn [collection all_arrays].
  destruct (m !! name) as [[|a]|]; [done| |done]. cbn [bind].
  destruct (index_col a 1); [|done]. cbn [bind]. unfold setattr.
  by rewrite decide_False.
Qed.

(** [read_calipso] is the load followed by the warning and the
    adoption of the variables. *)
Lemma read_calipso_unfold env fs (filename : string) w :
  read_calipso env fs (Some filename) w
  = match read_calipso_h5 fs (Some filename) CalipsoObject
            (announced (Some filename) w) with
    | (w1, Ok retv) =>
        ({| open_files := open_files w1;
            stdout := stdout w1 ++ offset_warning env |},
         adopt_variables (dsec env) retv)
    | (w1, Err e) => (w1, Err e)
    end.
Proof.
  unfold read_calipso, announced. unfold bindM at 1. unfold print at 1.
  unfold bindM at 1.
  destruct (read_calipso_h5 fs (Some filename) CalipsoObject _)
    as [w1 [retv|e]]; [|done].
  unfold offset_warning, adopt_variables, bindM, lift, print, retM.
  assert (∀ w2 : world,
    w2 = {| open_files := open_files w2; stdout := stdout w2 ++ [] |}) as Hw.
  { intros [o s]. cbn. by rewrite app_nil_r. }
  case_decide.
  - destruct (select_column_1 retv "latitude") as [r1|]; cbn [bind]; [|done].
    destruct (select_column_1 r1 "longitude") as [r2|]; cbn [bind]; [|done].
    destruct (select_column_1 r2 "profile_time_tai") as [r3|]; cbn [bind];
      [|done].
    destruct (getattr r3 "profile_time_tai") as [[|a]|]; done.
  - rewrite <- Hw.
    destruct (select_column_1 retv "latitude") as [r1|]; cbn [bind]; [|done].
    destruct (select_column_1 r1 "longitude") as [r2|]; cbn [bind]; [|done].
    destruct (select_column_1 r2 "profile_time_tai") as [r3|]; cbn [bind];
      [|done].
    destruct (getattr r3 "profile_time_tai") as [[|a]|]; done.
Qed.

Lemma adopt_variables_fields d m n1 c1 l1 n2 c2 l2 n3 c3 l3 :
  holds_2d m "latitude" n1 c1 l1 →
  holds_2d m "longitude" n2 c2 l2 →
  holds_2d m "profile_time_tai" n3 c3 l3 →
  adopt_variables d (collection m)
  = Ok (collection
          (<["sec_1970" :=
               VArr (NdArray [n3]
                       ((λ t, (t + inject_Z d)%Q) <$> flat (column_1 n3 c3 l3)))]>
             (<["profile_time_tai" := VArr (column_1 n3 c3 l3)]>
                (<["longitude" := VArr (column_1 n2 c2 l2)]>
                   (<["latitude" := VArr (column_1 n1 c1 l1)]> m))))).
Proof.
  intros (H1 & C1 & L1) (H2 & C2 & L2) (H3 & C3 & L3).
  unfold adopt_variables.
  rewrite select_column_1_fields by done. rewrite H1.
  rewrite index_col_2d by done. cbn [bind].
  rewrite select_column_1_fields by done.
  rewrite lookup_insert_ne by done. rewrite H2.
  rewrite index_col_2d by done. cbn [bind].
  rewrite select_column_1_fields by done.
  rewrite !lookup_insert_ne by done. rewrite H3.
  rewrite index_col_2d by done. cbn [bind].
  unfold getattr. cbn [collection all_arrays].
  rewrite lookup_insert_eq. cbn [bind]. unfold setattr.
  rewrite decide_False by done. done.
Qed.

Lemma adopt_variables_fails d m (name : string) v :
  name ∈ ["latitude"; "longitude"; "profile_time_tai"] →
  m !! name = Some v → lacks_column_1 v →
  is_ok (adopt_variables d (collection m)) = false.
Proof.
  intros Hname Hv Hlacks.
  assert (∀ m' : gmap string value, m' !! name = Some v →
            is_ok (select_column_1 (collection m') name) = false) as Hfail.
  { intros m' Hm'. rewrite select_column_1_fields.
    - rewrite Hm'. destruct v as [|a]; [done|].
      by rewrite (index_col_lacks a Hlacks).
    - intros ->. repeat (apply elem_of_cons in Hname as [Hc|Hname];
                         [discriminate|]). by apply elem_of_nil in Hname. }
  unfold adopt_variables.
  destruct (decide (name = "latitude")) as [->|N1].
  { specialize (Hfail m Hv).
    by destruct (select_column_1 (collection m) "latitude"). }
  rewrite select_column_1_fields by done.
  destruct (m !! "latitude") as [[|a1]|]; [done| |done].
  destruct (index_col a1 1) as [c1|]; [|done]. cbn [bind].
  destruct (decide (name = "longitude")) as [->|N2].
  { specialize (Hfail (<["latitude" := VArr c1]> m)).
    rewrite lookup_insert_ne in Hfail by done. specialize (Hfail Hv).
    by destruct (select_column_1 _ "longitude"). }
  rewrite select_column_1_fields by done.
  rewrite lookup_insert_ne by done.
  destruct (m !! "longitude") as [[|a2]|]; [done| |done].
  destruct (index_col a2 1) as [c2|]; [|done]. cbn [bind].
  assert (name = "profile_time_tai") as ->.
  { repeat (apply elem_of_cons in Hname as [Hc|Hname]; [done|]).
    by apply elem_of_nil in Hname. }
  specialize (Hfail (<["longitude" := VArr c2]> (<["latitude" := VArr c1]> m))).
  rewrite !lookup_insert_ne in Hfail by done. specialize (Hfail Hv).
  by destruct (select_column_1 _ "profile_time_tai").
Qed.

(** X18.  When the load leaves 2-D arrays with at least two columns under
    [latitude], [longitude] and [profile_time_tai], [read_calipso] returns
    the loaded collection with these three fields replaced by their
    column 1 and with [sec_1970] holding, row by row, column 1 of the
    profile time plus the offset [dsec]; every other field is as loaded,
    the handles are as the load left them, and [WARNING] is printed
    exactly when [dsec] differs from [dsec2]. *)
Theorem read_calipso_adopts_column_1
    (env : tzenv) (fs : filesystem) (filename : string) (w w1 : world)
    (m1 : gmap string value)
    (n1 c1 : nat) (l1 : list Q) (n2 c2 : nat) (l2 : list Q)
    (n3 c3 : nat) (l3 : list Q) :
  read_calipso_h5 fs (Some filename) CalipsoObject (announced (Some filename) w)
  = (w1, Ok (collection m1)) →
  holds_2d m1 "latitude" n1 c1 l1 →
  holds_2d m1 "longitude" n2 c2 l2 →
  holds_2d m1 "profile_time_tai" n3 c3 l3 →
  ∃ w' m',
    read_calipso env fs (Some filename) w = (w', Ok (collection m'))
    ∧ m' !! "latitude" = Some (VArr (column_1 n1 c1 l1))
    ∧ m' !! "longitude" = Some (VArr (column_1 n2 c2 l2))
    ∧ m' !! "profile_time_tai" = Some (VArr (column_1 n3 c3 l3))
    ∧ m' !! "sec_1970"
      = Some (VArr (NdArray [n3]
                 ((λ i, (nth (i * c3 + 1) l3 0 + inject_Z (dsec env))%Q)
                    <$> seq 0 n3)))
    ∧ (∀ name, name ∉ ["latitude"; "longitude"; "profile_time_tai"; "sec_1970"] →
               m' !! name = m1 !! name)
    ∧ open_files w' = open_files w1
    ∧ stdout w' = stdout w1 ++ offset_warning env.
Proof.
  intros Hrun H1 H2 H3. rewrite read_calipso_unfold, Hrun.
  rewrite (adopt_variables_fields _ _ _ _ _ _ _ _ _ _ _ H1 H2 H3).
  eexists _, _. split; [done|].
  split; [by rewrite !lookup_insert_ne, lookup_insert_eq by done|].
  split; [by rewrite !lookup_insert_ne, lookup_insert_eq by done|].
  split; [by rewrite !lookup_insert_ne, lookup_insert_eq by done|].
  split.
  { rewrite lookup_insert_eq. do 3 f_equal. cbn [column_1 flat].
    by rewrite <- list_fmap_compose. }
  split; [|done].
  intros name Hname. rewrite !not_elem_of_cons in Hname.
  destruct Hname as (N1 & N2 & N3 & N4 & _).
  by rewrite !lookup_insert_ne by done.
Qed.

(** X19.  When the load leaves [latitude], [longitude] or
    [profile_time_tai] null, or as an array with fewer than two axes or
    fewer than two columns, [read_calipso] returns no collection. *)
Theorem read_calipso_needs_column_1
    (env : tzenv) (fs : filesystem) (filename : string) (w w1 : world)
    (m1 : gmap string value) (name : string) (v : value) :
  read_calipso_h5 fs (Some filename) CalipsoObject (announced (Some filename) w)
  = (w1, Ok (collection m1)) →
  name ∈ ["latitude"; "longitude"; "profile_time_tai"] →
  m1 !! name = Some v →
  lacks_column_1 v →
  is_ok (read_calipso env fs (Some filename) w).2 = false.
Proof.
  intros Hrun Hname Hv Hlacks. rewrite read_calipso_unfold, Hrun. cbn [snd].
  by eapply adopt_variables_fails.
Qed.

(** X20.  Without a file name [read_calipso] raises [TypeError] in every
    environment: the fresh collection has no latitude to take column 1
    from. *)
Theorem read_calipso_without_file_raises_TypeError
    (env : tzenv) (fs : filesystem) (w : world) :
  (read_calipso env fs None w).2 = Err TypeError
  ∧ open_files (read_calipso env fs None w).1 = open_files w.
Proof.
  unfold read_calipso, bindM, print, retM, lift.
  case_decide; split; reflexivity.
Qed.

End Adopt.

Lemma run_collection (run : world * result DataObject) :
  returns_collection run = true →
  run = (run.1, Ok (collection (fields_of_run run))).
Proof.
  destruct run as [w [[[m|v]]|e]]; unfold returns_collection; cbn; done.
Qed.

Lemma read_calipso_adopts_column_1_witness :
  ∃ w' m',
    read_calipso istanbul_zone disk (Some "granule.h5") idle
    = (w', Ok (collection m'))
    ∧ m' !! "latitude" = Some (VArr (NdArray [2] [11; 21]%Q))
    ∧ m' !! "longitude" = Some (VArr (NdArray [2] [31; 41]%Q))
    ∧ m' !! "profile_time_tai" = Some (VArr (NdArray [2] [101; 201]%Q))
    ∧ m' !! "sec_1970"
      = Some (VArr (NdArray [2] [725850101; 725850201]%Q))
    ∧ open_files w' = []
    ∧ stdout w'
      = ["Reading file %s granule.h5"; "Reading single shot information";
         "Not reading Spacecraft_Position"; "Not reading metadata"; "WARNING"].
Proof.
  pose (run := read_calipso_h5 disk (Some "granule.h5") CalipsoObject
                 (announced (Some "granule.h5") idle)).
  assert (returns_collection run = true) as Hrun by (vm_compute; reflexivity).
  apply run_collection in Hrun.
  destruct (read_calipso_adopts_column_1 istanbul_zone disk "granule.h5" idle
              run.1 (fields_of_run run)
              2 3 [10; 11; 12; 20; 21; 22]%Q
              2 3 [30; 31; 32; 40; 41; 42]%Q
              2 3 [100; 101; 102; 200; 201; 202]%Q Hrun)
    as (w' & m' & Hread & Hla & Hlo & Hpt & Hsec & _ & Hopen & Hout).
  - split; [vm_compute; reflexivity|]. split; [lia|reflexivity].
  - split; [vm_compute; reflexivity|]. split; [lia|reflexivity].
  - split; [vm_compute; reflexivity|]. split; [lia|reflexivity].
  - exists w', m'. split; [exact Hread|].
    split; [rewrite Hla; vm_compute; reflexivity|].
    split; [rewrite Hlo; vm_compute; reflexivity|].
    split; [rewrite Hpt; vm_compute; reflexivity|].
    split; [rewrite Hsec; vm_compute; reflexivity|].
    split; [rewrite Hopen; vm_compute; reflexivity|].
    rewrite Hout. vm_compute. reflexivity.
Defined.

Lemma read_calipso_needs_column_1_witness :
  is_ok (read_calipso utc_zone disk_narrow (Some "narrow.h5") idle).2 = false.
Proof.
  pose (run := read_calipso_h5 disk_narrow (Some "narrow.h5") CalipsoObject
                 (announced (Some "narrow.h5") idle)).
  assert (returns_collection run = true) as Hrun by (vm_compute; reflexivity).
  apply run_collection in Hrun.
  apply (read_calipso_needs_column_1 utc_zone disk_narrow "narrow.h5" idle
           run.1 (fields_of_run run) "longitude"
           (VArr (NdArray [2; 1] [30; 40]%Q)) Hrun).
  - by_evaluation.
  - vm_compute. reflexivity.
  - simpl. lia.
Defined.

(** ** Merging three granules *)

Section Merging.

Implicit Types (x y z : value) (self other : gmap string value).
Implicit Types (key : string).

Lemma merged_value_stacked key x y other :
  other !! key = Some y → stackable x y →
  merged_value key x other = Ok (stacked key x y).
Proof.
  intros Hy Hxy. unfold merged_value, stacked, getitem. rewrite Hy.
  destruct x as [|a], y as [|b]; try done.
  destruct Hxy as (n & m & rest & Ha & Hb).
  case_decide; [|done]. cbn [bind].
  unfold np_concatenate. rewrite Ha, Hb. by rewrite decide_True.
Qed.

Lemma stacked_stackable key x y z :
  stackable x y → stackable y z →
  stackable (stacked key x y) z ∧ stackable x (stacked key y z).
Proof.
  destruct x as [|a], y as [|b], z as [|c]; try done.
  intros (n & m & rest & Ha & Hb) (m' & p & rest' & Hb' & Hc).
  rewrite Hb in Hb'. injection Hb' as <- <-.
  unfold stacked. split.
  - case_decide.
    + exists (hd 0 (shape a) + hd 0 (shape b)), p, rest.
      rewrite Ha. done.
    + by exists n, p, rest.
  - case_decide.
    + exists n, (hd 0 (shape b) + hd 0 (shape c)), rest.
      rewrite Hb. done.
    + by exists n, m, rest.
Qed.

Lemma stacked_assoc key x y z :
  stackable x y → stackable y z →
  stacked key (stacked key x y) z = stacked key x (stacked key y z).
Proof.
  destruct x as [|a], y as [|b], z as [|c]; try done.
  intros (n & m & rest & Ha & Hb) (m' & p & rest' & Hb' & Hc).
  rewrite Hb in Hb'. injection Hb' as <- <-.
  unfold stacked, ndim. rewrite Ha, Hb. cbn [length hd tail shape flat].
  destruct (decide (S (length rest) = 1 ∨ key ∈ segment_keys
                    ∨ S (length rest) = 2)) as [Hcat|Hcat].
  - cbn [shape flat length hd tail]. rewrite !decide_True by done.
    rewrite Hc. cbn [hd]. by rewrite Nat.add_assoc, app_assoc.
  - rewrite ?decide_False by done. cbn [shape]. rewrite Ha. cbn [length].
    by rewrite ?decide_False by done.
Qed.

Lemma uniform_sized self other : uniform_fields self other → sized_fields self.
Proof.
  intros Hu key x Hx. specialize (Hu key). rewrite Hx in Hu.
  destruct (other !! key) as [y|]; [|done].
  destruct x as [|a]; [done|]. destruct y as [|b]; [done|].
  destruct Hu as (n & m & rest & Ha & _). simpl. by rewrite Ha.
Qed.

Lemma uniform_sized_r self other : uniform_fields self other → sized_fields other.
Proof.
  intros Hu key y Hy. specialize (Hu key). rewrite Hy in Hu.
  destruct (self !! key) as [x|]; [|done].
  destruct x as [|a], y as [|b]; try done.
  destruct Hu as (n & m & rest & _ & Hb). simpl. by rewrite Hb.
Qed.

Lemma uniform_dom self other : uniform_fields self other → dom self ⊆ dom other.
Proof.
  intros Hu key. rewrite !elem_of_dom. intros [x Hx].
  specialize (Hu key). rewrite Hx in Hu.
  destruct (other !! key); [eauto|done].
Qed.

(** The sum of two non-empty uniform collections, field by field. *)
Lemma add_uniform self other :
  uniform_fields self other →
  nonempty_fields self → nonempty_fields other →
  ∃ r, add (collection self) (collection other) = Ok (collection r)
       ∧ (∀ key, r !! key
                 = match self !! key, other !! key with
                   | Some x, Some y => Some (stacked key x y)
                   | _, _ => None
                   end)
       ∧ nonempty_fields r.
Proof.
  intros Hu Hns Hno.
  destruct (add_nonempty_fields self other) as (r & Hr & Hin & Hout);
    [by eapply uniform_sized|by eapply uniform_sized_r|done|done
    |by apply uniform_dom|].
  assert (∀ key, r !! key
                 = match self !! key, other !! key with
                   | Some x, Some y => Some (stacked key x y)
                   | _, _ => None
                   end) as Hfields.
  { intros key. pose proof (Hu key) as Hk.
    destruct (self !! key) as [x|] eqn:Hx.
    - destruct (other !! key) as [y|] eqn:Hy; [|done].
      destruct (Hin key x Hx) as (v & Hv & ->).
      rewrite (merged_value_stacked key x y other Hy Hk) in Hv. congruence.
    - by apply Hout. }
  exists r. split; [done|]. split; [done|].
  destruct Hns as (key & a & n & rest & Ha & Hsa).
  pose proof (Hu key) as Hk. rewrite Ha in Hk.
  destruct (other !! key) as [[|b]|] eqn:Hb; try done.
  destruct Hk as (n' & m & rest' & Ha' & Hsb).
  rewrite Hsa in Ha'. injection Ha' as <- <-.
  specialize (Hfields key). rewrite Ha, Hb in Hfields. unfold stacked in Hfields.
  case_decide.
  - eexists key, _, (n + m), rest. split; [exact Hfields|].
    cbn [shape]. rewrite Hsa, Hsb. done.
  - by exists key, a, n, rest.
Qed.

(** X21.  Merging three non-empty granules whose fields are stackable
    one onto the next (null with null, arrays that differ in their first
    dimension only) does not depend on the grouping: [(a + b) + c] and
    [a + (b + c)] return the same fields. *)
Theorem add_is_associative_on_uniform_granules
    (a b c : gmap string value) :
  uniform_fields a b → uniform_fields b c →
  nonempty_fields a → nonempty_fields b → nonempty_fields c →
  ∃ ab bc abc,
    add (collection a) (collection b) = Ok (collection ab)
    ∧ add (collection ab) (collection c) = Ok (collection abc)
    ∧ add (collection b) (collection c) = Ok (collection bc)
    ∧ add (collection a) (collection bc) = Ok (collection abc).
Proof.
  intros Hab Hbc Ha Hb Hc.
  destruct (add_uniform a b Hab Ha Hb) as (ab & Rab & Fab & Nab).
  destruct (add_uniform b c Hbc Hb Hc) as (bc & Rbc & Fbc & Nbc).
  assert (uniform_fields ab c) as Hab_c.
  { intros key. rewrite Fab. pose proof (Hab key) as H1.
    pose proof (Hbc key) as H2.
    destruct (a !! key) as [x|], (b !! key) as [y|], (c !! key) as [z|];
      try done.
    by apply stacked_stackable. }
  assert (uniform_fields a bc) as Ha_bc.
  { intros key. rewrite Fbc. pose proof (Hab key) as H1.
    pose proof (Hbc key) as H2.
    destruct (a !! key) as [x|], (b !! key) as [y|], (c !! key) as [z|];
      try done.
    by eapply stacked_stackable. }
  destruct (add_uniform ab c Hab_c Nab Hc) as (abc & Rabc & Fabc & _).
  destruct (add_uniform a bc Ha_bc Ha Nbc) as (abc' & Rabc' & Fabc' & _).
  assert (abc' = abc) as ->.
  { apply map_eq. intros key. rewrite Fabc, Fabc', Fab, Fbc.
    pose proof (Hab key) as H1. pose proof (Hbc key) as H2.
    destruct (a !! key) as [x|], (b !! key) as [y|], (c !! key) as [z|];
      try done.
    f_equal. symmetry. by apply stacked_assoc. }
  by exists ab, bc, abc.
Qed.

End Merging.

Lemma add_is_associative_on_uniform_granules_witness :
  ∃ ab bc abc,
    add (collection granule_full) (collection granule_second) = Ok (collection ab)
    ∧ add (collection ab) (collection granule_third) = Ok (collection abc)
    ∧ add (collection granule_second) (collection granule_third)
      = Ok (collection bc)
    ∧ add (collection granule_full) (collection bc) = Ok (collection abc).
Proof.
  apply (add_is_associative_on_uniform_granules granule_full granule_second
           granule_third).
  - intros key. unfold granule_full, granule_second.
    destruct (decide (key = "latitude")) as [->|N1];
      [by exists 2, 1, []|].
    destruct (decide (key = "longitude")) as [->|N2];
      [by exists 1, 1, []|].
    by rewrite !lookup_insert_ne, lookup_empty by done.
  - intros key. unfold granule_second, granule_third.
    destruct (decide (key = "latitude")) as [->|N1];
      [by exists 1, 2, []|].
    destruct (decide (key = "longitude")) as [->|N2];
      [by exists 1, 1, []|].
    by rewrite !lookup_insert_ne, lookup_empty by done.
  - exists "latitude", (arr1 [1; 2]%Q), 1, []. split; reflexivity.
  - exists "latitude", (arr1 [4]%Q), 0, []. split; reflexivity.
  - exists "latitude", (arr1 [8; 9]%Q), 1, []. split; reflexivity.
Defined.

(** ** Datasets that share a canonical name *)

(** X22.  When several eligible datasets have the same canonical name,
    the field holds the array of the one that comes last in the file: a
    dataset is a field with its own array as soon as no later eligible
    dataset has its canonical name. *)
Theorem loader_later_dataset_wins
    (fs : filesystem) (filename : string) (f : h5file)
    (retv : DataObject) (m : gmap string value) (w : world)
    (pre post : list string) (k : string) (a : ndarray) :
  fs filename = Some f →
  valid_file f →
  all_arrays retv = Dict m →
  h5_keys f = pre ++ k :: post →
  (k, Dataset a) ∈ f →
  eligible k →
  (∀ k', k' ∈ post → eligible k' → canonical_name k' ≠ canonical_name k) →
  ∃ w' m',
    read_calipso_h5 fs (Some filename) retv w = (w', Ok (collection m'))
    ∧ m' !! canonical_name k = Some (VArr a).
Proof.
  intros Hfs Hf Hretv Hkeys Hin He Hpost.
  destruct retv as [d]. simpl in Hretv. subst d.
  destruct (read_calipso_h5_full fs filename f m w Hfs Hf)
    as (w' & m1 & Hrun & _).
  eexists _, _. split; [exact Hrun|].
  rewrite Hkeys, foldl_app. cbn [foldl].
  rewrite loaded_untouched by done.
  unfold load_step. rewrite decide_True by done.
  unfold h5_read.
  rewrite (h5_lookup_member f k (Dataset a) (vf_names f Hf) Hin).
  by rewrite lookup_insert_eq.
Qed.

Lemma granule_two_times_valid : valid_file granule_two_times.
Proof.
  constructor.
  - by_evaluation.
  - intros dataset item Hin He.
    repeat (apply elem_of_cons in Hin as [Heq|Hin];
            [injection Heq as -> ->; by eexists|]).
    by apply elem_of_nil in Hin.
  - intros dataset Hin _. unfold h5_keys in Hin. simpl in Hin.
    repeat (apply elem_of_cons in Hin as [->|Hin];
            [vm_compute; discriminate|]).
    by apply elem_of_nil in Hin.
  - intros Hss. exfalso. revert Hss. by_evaluation.
Qed.

Lemma loader_later_dataset_wins_witness :
  ∃ w' m',
    read_calipso_h5 disk_two_times (Some "two_times.h5") CalipsoObject idle
    = (w', Ok (collection m'))
    ∧ m' !! "profile_time_tai" = Some (VArr (NdArray [1; 2] [500; 501]%Q)).
Proof.
  apply (loader_later_dataset_wins disk_two_times "two_times.h5"
           granule_two_times CalipsoObject _ idle
           ["Latitude"; "Profile_Time"] [] "profile_time_tai"
           (NdArray [1; 2] [500; 501]%Q) eq_refl granule_two_times_valid
           eq_refl eq_refl).
  - do 2 right. left.
  - by_evaluation.
  - intros k' Hk'. by apply elem_of_nil in Hk'.
Defined.
